(** * Snake game: the game loop of [snake_game.py], embedded and verified

    The development follows the source file top to bottom: constants, the
    high-score file, entity placement, movement and collision, and finally
    the body of [game_loop].  Everything that the Python code obtains from
    its surroundings (random numbers, the wall clock, the file system, the
    keyboard) is an explicit input of the model:

    - the random source and the clock are oracles read through a cursor;
    - the high-score file is a piece of the mutable world;
    - keyboard events arrive as one batch per loop iteration;
    - an uncaught Python exception is an outcome of its own, and so is a
      [while True] loop that has not returned within the allotted fuel.

    Clock readings are binary64 floats, as in the interpreter, and the two
    timer tests compare the rounded difference of two readings.  The
    built-in [int] is modelled after the interpreter, on code points; its
    Unicode tables and its limit on the digits of a literal are taken from
    the surroundings.  The built-in [str] is the decimal numeral of its
    argument; the interpreter refuses to write a numeral beyond that limit,
    and the statements that depend on what is written say so with
    [within_limit].  The high-score file is either a text or one of three
    ways of not yielding a text; statements about a file written and read
    again leave out a file that is barred from reading.  The drawing
    functions are modelled on their own, as the list of shapes they draw;
    window set-up, text rendering and frame pacing change none of the
    variables of the game and are left out. *)

From Stdlib Require Import PrimFloat.
From Stdlib Require Import ZArith NArith List Bool Ascii String Lia.
From Stdlib Require Import DecimalString DecimalZ.
Import ListNotations.

Local Open Scope Z_scope.

(** ** Constants (lines 17-38) *)

Definition SCREEN_WIDTH : Z := 800.
Definition SCREEN_HEIGHT : Z := 600.
Definition GRID_SIZE : Z := 20.
Definition GRID_WIDTH : Z := SCREEN_WIDTH / GRID_SIZE.
Definition GRID_HEIGHT : Z := SCREEN_HEIGHT / GRID_SIZE.

Definition SNAKE_SPEED_NORMAL : Z := 10.
Definition SNAKE_SPEED_BOOST : Z := 20.

Definition POWERUP_DURATION : float := 5%float.
Definition POWERUP_SPAWN_INTERVAL : float := 20%float.

(** ** Data *)

Definition Cell : Type := (Z * Z)%type.

Definition cell_eqb (a b : Cell) : bool :=
  (fst a =? fst b) && (snd a =? snd b).

(** Python's [c in cells] on a list of tuples. *)
Definition cell_in (c : Cell) (cells : list Cell) : bool :=
  existsb (cell_eqb c) cells.

(** The four direction strings of the source. *)
Inductive Direction : Type := UP | DOWN | LEFT | RIGHT.

Definition Direction_eqb (a b : Direction) : bool :=
  match a, b with
  | UP, UP | DOWN, DOWN | LEFT, LEFT | RIGHT, RIGHT => true
  | _, _ => false
  end.

(** The exceptions that the modelled code can raise. *)
Inductive Exn : Type := IOError | ValueError | IndexError.

(** A text is its sequence of code points. *)
Definition Text : Type := list N.

(** The state of [highscore.txt] on disk: absent, not to be opened for
    reading, holding bytes that do not decode, or holding a text, given as
    [f.read()] returns it. *)
Inductive FileState : Type :=
| Missing
| Unreadable
| Undecodable
| Content (text : Text).

(** What happens when the file is opened for writing. *)
Inductive Disk : Type :=
| Writable
| OpenFails
| WriteFails.

(** The surroundings of the program: read only. *)
Record Env : Type := mkEnv {
  rng : nat -> Z;      (* raw output of the random generator, draw by draw *)
  clock : nat -> float;    (* successive readings of [time.time()] *)
  disk : Disk;
  unicode_space : N -> bool;         (* white space above code point 126 *)
  unicode_decimal : N -> option N;   (* decimal digits above code point 126 *)
  max_str_digits : nat     (* most digits of a literal; 0 for no limit *)
}.

(** The part of the surroundings that the program changes. *)
Record World : Type := mkWorld {
  rng_pos : nat;
  clock_pos : nat;
  file : FileState
}.

(** ** A monad for the effects of the source *)

Inductive Outcome (A : Type) : Type :=
| Done (a : A) (w : World)
| Uncaught (e : Exn) (w : World)
| OutOfFuel.

Arguments Done {A} a w.
Arguments Uncaught {A} e w.
Arguments OutOfFuel {A}.

Definition M (A : Type) : Type := Env -> World -> Outcome A.

Definition ret {A} (a : A) : M A := fun _ w => Done a w.

Definition bind {A B} (m : M A) (f : A -> M B) : M B :=
  fun env w =>
    match m env w with
    | Done a w' => f a env w'
    | Uncaught e w' => Uncaught e w'
    | OutOfFuel => OutOfFuel
    end.

Definition raise {A} (e : Exn) : M A := fun _ w => Uncaught e w.

(** [try: m except <handled>: h] *)
Definition try_except {A} (m : M A) (handled : Exn -> bool) (h : M A) : M A :=
  fun env w =>
    match m env w with
    | Uncaught e w' => if handled e then h env w' else Uncaught e w'
    | r => r
    end.

Declare Scope snake_scope.
Delimit Scope snake_scope with snake.
Notation "x <- m ;; k" := (bind m (fun x => k))
  (at level 61, m at next level, right associativity) : snake_scope.
Notation "m ;;; k" := (bind m (fun _ => k))
  (at level 61, right associativity) : snake_scope.
Local Open Scope snake_scope.

(** [random.randint(lo, hi)]: the raw draw is folded into the closed range. *)
Definition randint (lo hi : Z) : M Z :=
  fun env w =>
    Done (lo + rng env (rng_pos w) mod (hi - lo + 1))
         (mkWorld (S (rng_pos w)) (clock_pos w) (file w)).

(** [time.time()] *)
Definition time_time : M float :=
  fun env w =>
    Done (clock env (clock_pos w))
         (mkWorld (rng_pos w) (S (clock_pos w)) (file w)).

(** ** The built-ins [int] and [str] on text

    [int(text)] in base ten, as the interpreter computes it.  A text with a
    code point above 127 first has its Unicode white space turned into
    blanks and its Unicode decimal digits into ASCII digits, and is cut at
    the first other code point above 126.  Then the surrounding white space
    (tab to carriage return, and blank) is dropped, one sign is allowed, and
    decimal digits follow, where single underscores may separate digits.  A
    literal of more than 640 digits that has more digits than the
    interpreter's limit is refused. *)

Definition ascii_text (s : string) : Text :=
  map N_of_ascii (list_ascii_of_string s).

Fixpoint to_ascii (env : Env) (text : Text) : Text :=
  match text with
  | [] => []
  | ch :: rest =>
      if (ch <? 127)%N then ch :: to_ascii env rest
      else if unicode_space env ch then 32%N :: to_ascii env rest
      else match unicode_decimal env ch with
           | Some decimal => (48 + decimal)%N :: to_ascii env rest
           | None => [63%N]
           end
  end.

Definition is_space (c : N) : bool :=
  (((9 <=? c) && (c <=? 13)) || (c =? 32))%N.

Definition digit_val (c : N) : option Z :=
  if ((48 <=? c) && (c <=? 57))%N then Some (Z.of_N c - 48) else None.

Fixpoint lstrip (s : Text) : Text :=
  match s with
  | c :: r => if is_space c then lstrip r else s
  | [] => []
  end.

Definition strip (s : Text) : Text :=
  rev (lstrip (rev (lstrip s))).

(** [after_digit] tells whether the previous character was a digit: only then
    may an underscore follow, and only then may the literal end. *)
Fixpoint parse_digits (acc : Z) (after_digit : bool) (s : Text) : option Z :=
  match s with
  | [] => if after_digit then Some acc else None
  | c :: r =>
      match digit_val c with
      | Some d => parse_digits (10 * acc + d) true r
      | None =>
          if (c =? 95)%N && after_digit
          then parse_digits acc false r
          else None
      end
  end.

Definition count_digits (s : Text) : nat :=
  List.length
    (filter (fun c => match digit_val c with Some _ => true | None => false end)
            s).

(** The limit is looked at only for more than 640 digits, and 0 turns it
    off. *)
Definition over_limit (env : Env) (digits : nat) : bool :=
  ((640 <? digits) && (0 <? max_str_digits env) &&
   (max_str_digits env <? digits))%nat.

(** The digits after the sign. *)
Definition literal (env : Env) (s : Text) : option Z :=
  if over_limit env (count_digits s) then None else parse_digits 0 false s.

(** The text as the parser sees it: an ASCII text is taken as it is. *)
Definition ascii_form (env : Env) (text : Text) : Text :=
  if forallb (fun ch => (ch <? 128)%N) text then text
  else to_ascii env text.

Definition py_int (env : Env) (text : Text) : option Z :=
  match strip (ascii_form env text) with
  | c :: r =>
      if (c =? 45)%N then option_map Z.opp (literal env r)
      else if (c =? 43)%N then literal env r
      else literal env (c :: r)
  | [] => None
  end.

(** [str(z)]: the decimal numeral, with a minus sign for a negative [z]. *)
Definition py_str (z : Z) : Text :=
  ascii_text (NilZero.string_of_int (Z.to_int z)).

(** ** The high-score file (lines 48-59) *)

(** [open("highscore.txt", "r")] followed by [f.read()] *)
Definition read_file : M Text :=
  fun _ w =>
    match file w with
    | Content text => Done text w
    | Missing | Unreadable => Uncaught IOError w
    | Undecodable => Uncaught ValueError w
    end.

Definition int_of_text (text : Text) : M Z :=
  fun env w =>
    match py_int env text with
    | Some z => Done z w
    | None => Uncaught ValueError w
    end.

Definition load_high_score : M Z :=
  try_except
    (text <- read_file ;; int_of_text text)
    (fun e => match e with IOError | ValueError => true | IndexError => false end)
    (ret 0).

(** Opening for writing truncates the file; the text is written afterwards. *)
Definition save_high_score (score : Z) : M unit :=
  fun env w =>
    match disk env with
    | Writable =>
        Done tt (mkWorld (rng_pos w) (clock_pos w) (Content (py_str score)))
    | OpenFails => Uncaught IOError w
    | WriteFails =>
        Uncaught IOError (mkWorld (rng_pos w) (clock_pos w) (Content []))
    end.

(** ** Game components (lines 62-78) *)

Definition create_snake : list Cell := [(GRID_WIDTH / 2, GRID_HEIGHT / 2)].

(** The [while True] loop of [create_food]: every round draws a column and a
    row, and returns the cell unless the snake covers it.  [fuel] bounds the
    number of rounds; the source has no bound. *)
Fixpoint create_food (fuel : nat) (snake_body : list Cell) : M Cell :=
  match fuel with
  | O => fun _ _ => OutOfFuel
  | S fuel' =>
      x <- randint 0 (GRID_WIDTH - 1) ;;
      y <- randint 0 (GRID_HEIGHT - 1) ;;
      let food_pos := (x, y) in
      if negb (cell_in food_pos snake_body) then ret food_pos
      else create_food fuel' snake_body
  end.

Fixpoint create_powerup (fuel : nat) (snake_body : list Cell) : M Cell :=
  match fuel with
  | O => fun _ _ => OutOfFuel
  | S fuel' =>
      x <- randint 0 (GRID_WIDTH - 1) ;;
      y <- randint 0 (GRID_HEIGHT - 1) ;;
      let powerup_pos := (x, y) in
      if negb (cell_in powerup_pos snake_body) then ret powerup_pos
      else create_powerup fuel' snake_body
  end.

(** ** Game logic (lines 116-139) *)

(** [snake_body[0]] *)
Definition item0 (snake_body : list Cell) : M Cell :=
  match snake_body with
  | head :: _ => ret head
  | [] => raise IndexError
  end.

(** [snake_body.pop()] *)
Definition list_pop (snake_body : list Cell) : M (list Cell) :=
  match snake_body with
  | [] => raise IndexError
  | _ :: _ => ret (removelast snake_body)
  end.

Definition move_snake (snake_body : list Cell) (direction : Direction)
  : M (list Cell) :=
  head <- item0 snake_body ;;
  let '(head_x, head_y) := head in
  let new_head :=
    match direction with
    | UP => (head_x, head_y - 1)
    | DOWN => (head_x, head_y + 1)
    | LEFT => (head_x - 1, head_y)
    | RIGHT => (head_x + 1, head_y)
    end in
  ret (new_head :: snake_body).

Definition check_collision (snake_body : list Cell) : M bool :=
  head <- item0 snake_body ;;
  if (fst head <? 0) || (fst head >=? GRID_WIDTH) ||
     (snd head <? 0) || (snd head >=? GRID_HEIGHT)
  then ret true
  else if cell_in head (tl snake_body) then ret true
  else ret false.

(** ** The variables of one game attempt (lines 181-191) *)

Record Session : Type := mkSession {
  snake_body : list Cell;
  food_pos : Cell;
  powerup_pos : option Cell;
  direction : Direction;
  score : Z;
  high_score : Z;
  paused : bool;
  speed : Z;
  powerup_active : bool;
  powerup_timer : float;
  last_powerup_spawn : float
}.

Definition set_snake_body (v : list Cell) (s : Session) : Session :=
  mkSession v (food_pos s) (powerup_pos s) (direction s) (score s)
    (high_score s) (paused s) (speed s) (powerup_active s) (powerup_timer s)
    (last_powerup_spawn s).

Definition set_food_pos (v : Cell) (s : Session) : Session :=
  mkSession (snake_body s) v (powerup_pos s) (direction s) (score s)
    (high_score s) (paused s) (speed s) (powerup_active s) (powerup_timer s)
    (last_powerup_spawn s).

Definition set_powerup_pos (v : option Cell) (s : Session) : Session :=
  mkSession (snake_body s) (food_pos s) v (direction s) (score s)
    (high_score s) (paused s) (speed s) (powerup_active s) (powerup_timer s)
    (last_powerup_spawn s).

Definition set_direction (v : Direction) (s : Session) : Session :=
  mkSession (snake_body s) (food_pos s) (powerup_pos s) v (score s)
    (high_score s) (paused s) (speed s) (powerup_active s) (powerup_timer s)
    (last_powerup_spawn s).

Definition set_score (v : Z) (s : Session) : Session :=
  mkSession (snake_body s) (food_pos s) (powerup_pos s) (direction s) v
    (high_score s) (paused s) (speed s) (powerup_active s) (powerup_timer s)
    (last_powerup_spawn s).

Definition set_high_score (v : Z) (s : Session) : Session :=
  mkSession (snake_body s) (food_pos s) (powerup_pos s) (direction s) (score s)
    v (paused s) (speed s) (powerup_active s) (powerup_timer s)
    (last_powerup_spawn s).

Definition set_paused (v : bool) (s : Session) : Session :=
  mkSession (snake_body s) (food_pos s) (powerup_pos s) (direction s) (score s)
    (high_score s) v (speed s) (powerup_active s) (powerup_timer s)
    (last_powerup_spawn s).

(** The three assignments made together when a boost starts or ends. *)
Definition set_boost (spd : Z) (active : bool) (timer : float) (s : Session)
  : Session :=
  mkSession (snake_body s) (food_pos s) (powerup_pos s) (direction s) (score s)
    (high_score s) (paused s) spd active timer (last_powerup_spawn s).

Definition set_last_powerup_spawn (v : float) (s : Session) : Session :=
  mkSession (snake_body s) (food_pos s) (powerup_pos s) (direction s) (score s)
    (high_score s) (paused s) (speed s) (powerup_active s) (powerup_timer s) v.

Definition new_session (fuel : nat) : M Session :=
  high_score <- load_high_score ;;
  let snake_body := create_snake in
  food_pos <- create_food fuel snake_body ;;
  last_powerup_spawn <- time_time ;;
  ret (mkSession snake_body food_pos None RIGHT 0 high_score false
         SNAKE_SPEED_NORMAL false 0%float last_powerup_spawn).

(** ** Input handling (lines 195-210) *)

Inductive Key : Type :=
  K_SPACE | K_UP | K_DOWN | K_LEFT | K_RIGHT | K_r | K_q | K_other.

Inductive Event : Type :=
| QUIT
| KEYDOWN (key : Key)
| OtherEvent.

Definition keydown (key : Key) (s : Session) : Session :=
  match key with
  | K_SPACE => set_paused (negb (paused s)) s
  | _ =>
      if negb (paused s) then
        match key with
        | K_UP =>
            if negb (Direction_eqb (direction s) DOWN)
            then set_direction UP s else s
        | K_DOWN =>
            if negb (Direction_eqb (direction s) UP)
            then set_direction DOWN s else s
        | K_LEFT =>
            if negb (Direction_eqb (direction s) RIGHT)
            then set_direction LEFT s else s
        | K_RIGHT =>
            if negb (Direction_eqb (direction s) LEFT)
            then set_direction RIGHT s else s
        | _ => s
        end
      else s
  end.

(** The [for event in pygame.event.get()] loop; [None] is the [return] taken
    on a window-close event. *)
Fixpoint process_events (events : list Event) (s : Session) : option Session :=
  match events with
  | [] => Some s
  | QUIT :: _ => None
  | KEYDOWN key :: rest => process_events rest (keydown key s)
  | OtherEvent :: rest => process_events rest s
  end.

(** ** One update (lines 216-247) *)

(** [now - since > limit] in float arithmetic. *)
Definition elapsed_over (now since limit : float) : bool :=
  PrimFloat.ltb limit (PrimFloat.sub now since).

Arguments elapsed_over : simpl never.

Inductive Status : Type := Running | GameOver.

(** Move, then grow on food or drop the tail. *)
Definition eat_or_shrink (fuel : nat) (s : Session) : M Session :=
  body <- move_snake (snake_body s) (direction s) ;;
  head <- item0 body ;;
  if cell_eqb head (food_pos s) then
    food <- create_food fuel body ;;
    ret (set_food_pos food (set_score (score s + 1) (set_snake_body body s)))
  else
    body' <- list_pop body ;;
    ret (set_snake_body body' s).

Definition take_powerup (s : Session) : M Session :=
  match powerup_pos s with
  | Some p =>
      head <- item0 (snake_body s) ;;
      if cell_eqb head p then
        now <- time_time ;;
        ret (set_powerup_pos None (set_boost SNAKE_SPEED_BOOST true now s))
      else ret s
  | None => ret s
  end.

Definition expire_boost (s : Session) : M Session :=
  if powerup_active s then
    now <- time_time ;;
    if elapsed_over now (powerup_timer s) POWERUP_DURATION
    then ret (set_boost SNAKE_SPEED_NORMAL false (powerup_timer s) s)
    else ret s
  else ret s.

Definition spawn_powerup (fuel : nat) (s : Session) : M Session :=
  now <- time_time ;;
  if elapsed_over now (last_powerup_spawn s) POWERUP_SPAWN_INTERVAL &&
     match powerup_pos s with None => true | Some _ => false end
  then
    p <- create_powerup fuel (snake_body s) ;;
    now' <- time_time ;;
    ret (set_last_powerup_spawn now' (set_powerup_pos (Some p) s))
  else ret s.

Definition settle_collision (s : Session) : M (Session * Status) :=
  hit <- check_collision (snake_body s) ;;
  if hit then
    if score s >? high_score s then
      let s' := set_high_score (score s) s in
      save_high_score (high_score s') ;;;
      ret (s', GameOver)
    else ret (s, GameOver)
  else ret (s, Running).

(** Lines 216-241: everything before the game-over test. *)
Definition advance (fuel : nat) (s : Session) : M Session :=
  s1 <- eat_or_shrink fuel s ;;
  s2 <- take_powerup s1 ;;
  s3 <- expire_boost s2 ;;
  spawn_powerup fuel s3.

Definition update (fuel : nat) (s : Session) : M (Session * Status) :=
  s4 <- advance fuel s ;;
  settle_collision s4.

(** ** The loops of [game_loop] (lines 175-266) *)

(** What [game_over_screen] returns. *)
Inductive Action : Type := ACT_QUIT | ACT_RESTART.

(** How one iteration of the inner loop ends. *)
Inductive Next : Type :=
| Continue (s : Session)
| SessionOver (s : Session) (answer : Action)
| Exit.

(** One iteration of [while running]: the event batch and, should the game-over
    screen come up, the player's answer to it. *)
Definition frame (fuel : nat) (events : list Event) (answer : Action)
  (s : Session) : M Next :=
  match process_events events s with
  | None => ret Exit
  | Some s1 =>
      if paused s1 then ret (Continue s1)
      else
        r <- update fuel s1 ;;
        match r with
        | (s2, GameOver) => ret (SessionOver s2 answer)
        | (s2, Running) => ret (Continue s2)
        end
  end.

(** The inner loop over a finite run of inputs. *)
Fixpoint play (fuel : nat) (inputs : list (list Event * Action)) (s : Session)
  : M Next :=
  match inputs with
  | [] => ret (Continue s)
  | (events, answer) :: rest =>
      n <- frame fuel events answer s ;;
      match n with
      | Continue s' => play fuel rest s'
      | _ => ret n
      end
  end.

(** The outer loop: a restart builds a fresh session; [None] means that the
    program has returned. *)
Fixpoint game_loop_from (fuel : nat) (inputs : list (list Event * Action))
  (s : Session) : M (option Session) :=
  match inputs with
  | [] => ret (Some s)
  | (events, answer) :: rest =>
      n <- frame fuel events answer s ;;
      match n with
      | Continue s' => game_loop_from fuel rest s'
      | SessionOver _ ACT_RESTART =>
          s' <- new_session fuel ;; game_loop_from fuel rest s'
      | SessionOver _ ACT_QUIT | Exit => ret None
      end
  end.

Definition game_loop (fuel : nat) (inputs : list (list Event * Action))
  : M (option Session) :=
  s <- new_session fuel ;; game_loop_from fuel inputs s.

(** ** The game-over screen (lines 141-163) *)

(** The [for] loop over one batch of events: the first window-close event or
    press of [r] or [q] decides; [None] when the batch holds neither. *)
Fixpoint game_over_events (events : list Event) : option Action :=
  match events with
  | [] => None
  | QUIT :: _ => Some ACT_QUIT
  | KEYDOWN K_r :: _ => Some ACT_RESTART
  | KEYDOWN K_q :: _ => Some ACT_QUIT
  | _ :: rest => game_over_events rest
  end.

(** The [while True] loop around it, over the batches that successive calls
    of [pygame.event.get()] deliver; [None] while the player has not
    answered. *)
Fixpoint game_over_screen (batches : list (list Event)) : option Action :=
  match batches with
  | [] => None
  | events :: later =>
      match game_over_events events with
      | Some action => Some action
      | None => game_over_screen later
      end
  end.

(** ** Drawing (lines 24-30 and 81-105)

    The screen is the list of shapes drawn on it, in drawing order. *)

Definition Color : Type := (Z * Z * Z)%type.

Definition BLACK : Color := (0, 0, 0).
Definition WHITE : Color := (255, 255, 255).
Definition RED : Color := (255, 0, 0).
Definition BLUE : Color := (0, 0, 255).
Definition SNAKE_HEAD_COLOR : Color := (0, 175, 0).
Definition SNAKE_BODY_COLOR : Color := (0, 225, 0).

Inductive Shape : Type :=
| Rect (color : Color) (left top width height : Z)
| Line (color : Color) (start_pos end_pos : Z * Z).

(** [range(start, stop, step)] for a positive step. *)
Definition py_range (start stop step : Z) : list Z :=
  map (fun i => start + Z.of_nat i * step)
      (seq 0 (Z.to_nat ((stop - start + step - 1) / step))).

Definition draw_grid : list Shape :=
  map (fun x => Line WHITE (x, 0) (x, SCREEN_HEIGHT))
      (py_range 0 SCREEN_WIDTH GRID_SIZE) ++
  map (fun y => Line WHITE (0, y) (SCREEN_WIDTH, y))
      (py_range 0 SCREEN_HEIGHT GRID_SIZE).

Definition draw_snake (snake_body : list Cell) : list Shape :=
  match snake_body with
  | [] => []
  | head :: _ =>
      Rect SNAKE_HEAD_COLOR (fst head * GRID_SIZE) (snd head * GRID_SIZE)
           GRID_SIZE GRID_SIZE ::
      map (fun segment =>
             Rect SNAKE_BODY_COLOR (fst segment * GRID_SIZE)
                  (snd segment * GRID_SIZE) GRID_SIZE GRID_SIZE)
          (tl snake_body)
  end.

Definition draw_food (food_pos : Cell) : list Shape :=
  [Rect RED (fst food_pos * GRID_SIZE) (snd food_pos * GRID_SIZE)
        GRID_SIZE GRID_SIZE].

Definition draw_powerup (powerup_pos : Cell) : list Shape :=
  [Rect BLUE (fst powerup_pos * GRID_SIZE) (snd powerup_pos * GRID_SIZE)
        GRID_SIZE GRID_SIZE].

(** * Vocabulary of the statements *)

(** The cell proposed by the round of the placement loop that starts reading
    the random source at position [pos]. *)
Definition draw (env : Env) (pos : nat) : Cell :=
  (0 + rng env pos mod (GRID_WIDTH - 1 - 0 + 1),
   0 + rng env (S pos) mod (GRID_HEIGHT - 1 - 0 + 1)).

Definition in_grid (c : Cell) : Prop :=
  0 <= fst c < GRID_WIDTH /\ 0 <= snd c < GRID_HEIGHT.

Definition advance_rng (n : nat) (w : World) : World :=
  mkWorld (rng_pos w + n) (clock_pos w) (file w).

(** The cell one step from [head] in direction [d]. *)
Definition moved_head (d : Direction) (head : Cell) : Cell :=
  match d with
  | UP => (fst head, snd head - 1)
  | DOWN => (fst head, snd head + 1)
  | LEFT => (fst head - 1, snd head)
  | RIGHT => (fst head + 1, snd head)
  end.

Definition out_of_bounds (c : Cell) : Prop :=
  fst c < 0 \/ fst c >= GRID_WIDTH \/ snd c < 0 \/ snd c >= GRID_HEIGHT.

Definition off_grid (c : Cell) : bool :=
  (fst c <? 0) || (fst c >=? GRID_WIDTH) ||
  (snd c <? 0) || (snd c >=? GRID_HEIGHT).

(** The fields that only the first stage and the high-score update touch. *)
Definition same_core (s s' : Session) : Prop :=
  snake_body s' = snake_body s /\ food_pos s' = food_pos s /\
  score s' = score s /\ high_score s' = high_score s /\
  direction s' = direction s /\ paused s' = paused s.

(** The body after the move: grown by the new head when it lands on the
    food, shifted otherwise. *)
Definition post_move_body (s : Session) (h : Cell) (t : list Cell)
  : list Cell :=
  let nh := moved_head (direction s) h in
  if cell_eqb nh (food_pos s) then nh :: h :: t
  else removelast (nh :: h :: t).

(** The random source is fair to [body] within [fuel] rounds when, from every
    position on, one of the next [fuel] rounds proposes a free cell. *)
Definition fair (env : Env) (fuel : nat) (body : list Cell) : Prop :=
  forall pos, exists k, (k < fuel)%nat /\
    cell_in (draw env (pos + 2 * k)) body = false.

Definition high_score_of (n : Next) (default : Z) : Z :=
  match n with
  | Continue s | SessionOver s _ => high_score s
  | Exit => default
  end.

Definition opposite (d : Direction) : Direction :=
  match d with
  | UP => DOWN
  | DOWN => UP
  | LEFT => RIGHT
  | RIGHT => LEFT
  end.

(** The arrow key that asks for direction [d]. *)
Definition key_of (d : Direction) : Key :=
  match d with
  | UP => K_UP
  | DOWN => K_DOWN
  | LEFT => K_LEFT
  | RIGHT => K_RIGHT
  end.

(** Events that neither toggle the pause nor close the window. *)
Definition calm (e : Event) : bool :=
  match e with
  | QUIT | KEYDOWN K_SPACE => false
  | KEYDOWN _ | OtherEvent => true
  end.

Definition range (n : nat) : list Z := map Z.of_nat (seq 0 n).

(** Every cell of the grid, column by column: a snake that fills the board. *)
Definition all_cells : list Cell :=
  flat_map (fun x => map (fun y => (x, y)) (range (Z.to_nat GRID_HEIGHT)))
           (range (Z.to_nat GRID_WIDTH)).

(** Two cells side by side or one above the other. *)
Definition adjacent (a b : Cell) : Prop :=
  Z.abs (fst a - fst b) + Z.abs (snd a - snd b) = 1.

(** Every segment touches the next one. *)
Fixpoint chain (body : list Cell) : Prop :=
  match body with
  | a :: (b :: _) as rest => adjacent a b /\ chain rest
  | _ => True
  end.

(** A snake that has hit nothing: no cell twice, every cell on the grid. *)
Definition alive (body : list Cell) : Prop :=
  NoDup body /\ Forall in_grid body.

(** The world after one reading of the clock. *)
Definition tick_clock (w : World) : World :=
  mkWorld (rng_pos w) (S (clock_pos w)) (file w).

(** The head stands on the border and looks across it. *)
Definition faces_wall (d : Direction) (head : Cell) : Prop :=
  match d with
  | UP => snd head = 0
  | DOWN => snd head = GRID_HEIGHT - 1
  | LEFT => fst head = 0
  | RIGHT => fst head = GRID_WIDTH - 1
  end.

(** What [load_high_score] returns in the world [w]. *)
Definition loaded (env : Env) (w : World) : Z :=
  match file w with
  | Content text =>
      match py_int env text with
      | Some z => z
      | None => 0
      end
  | Missing | Unreadable | Undecodable => 0
  end.

(** Food and power-up lie on the grid and off the snake. *)
Definition items_off_snake (s : Session) : Prop :=
  (in_grid (food_pos s) /\ ~ In (food_pos s) (snake_body s)) /\
  (forall p, powerup_pos s = Some p -> in_grid p /\ ~ In p (snake_body s)).

(** The speed is the one that goes with the boost flag. *)
Definition speed_matches_boost (s : Session) : Prop :=
  speed s = if powerup_active s then SNAKE_SPEED_BOOST else SNAKE_SPEED_NORMAL.

(** The new head [nh] lands on the power-up of [s]. *)
Definition picks_up (s : Session) (nh : Cell) : bool :=
  match powerup_pos s with
  | Some p => cell_eqb nh p
  | None => false
  end.

(** What one event means on the game-over screen. *)
Definition answer_of (e : Event) : option Action :=
  match e with
  | QUIT => Some ACT_QUIT
  | KEYDOWN K_r => Some ACT_RESTART
  | KEYDOWN K_q => Some ACT_QUIT
  | KEYDOWN _ | OtherEvent => None
  end.

(** [str(z)] has no more digits than the interpreter allows in a literal. *)
Definition within_limit (env : Env) (z : Z) : Prop :=
  over_limit env (count_digits (py_str z)) = false.

(** A point of the window: column 0 to 799, row 0 to 599. *)
Definition pixel (p : Z * Z) : Prop :=
  0 <= fst p < SCREEN_WIDTH /\ 0 <= snd p < SCREEN_HEIGHT.

(** The number that the digits of [d] denote after the digits that gave
    [acc]. *)
Fixpoint uint_acc (d : Decimal.uint) (acc : Z) : Z :=
  match d with
  | Decimal.Nil => acc
  | Decimal.D0 l => uint_acc l (10 * acc + 0)
  | Decimal.D1 l => uint_acc l (10 * acc + 1)
  | Decimal.D2 l => uint_acc l (10 * acc + 2)
  | Decimal.D3 l => uint_acc l (10 * acc + 3)
  | Decimal.D4 l => uint_acc l (10 * acc + 4)
  | Decimal.D5 l => uint_acc l (10 * acc + 5)
  | Decimal.D6 l => uint_acc l (10 * acc + 6)
  | Decimal.D7 l => uint_acc l (10 * acc + 7)
  | Decimal.D8 l => uint_acc l (10 * acc + 8)
  | Decimal.D9 l => uint_acc l (10 * acc + 9)
  end.

(** The characters of a decimal numeral. *)
Definition chars_of (d : Decimal.uint) : Text :=
  ascii_text (NilEmpty.string_of_uint d).

(** The square drawn for a cell. *)
Definition cell_rect (color : Color) (c : Cell) : Shape :=
  Rect color (fst c * GRID_SIZE) (snd c * GRID_SIZE) GRID_SIZE GRID_SIZE.

(** The shape lies within the window. *)
Definition on_screen (sh : Shape) : Prop :=
  match sh with
  | Rect _ l t w h =>
      0 <= l /\ l + w <= SCREEN_WIDTH /\ 0 <= t /\ t + h <= SCREEN_HEIGHT
  | Line _ start_pos end_pos => pixel start_pos /\ pixel end_pos
  end.

(** Two rectangles share some area. *)
Definition overlap (a b : Shape) : Prop :=
  match a, b with
  | Rect _ l1 t1 w1 h1, Rect _ l2 t2 w2 h2 =>
      l1 < l2 + w2 /\ l2 < l1 + w1 /\ t1 < t2 + h2 /\ t2 < t1 + h1
  | _, _ => False
  end.


(** * Sample inputs *)

(** Every draw is 0, the clock stands at one second, the disk works; no
    Unicode white space or digits, and at most 4300 digits in a literal. *)
Definition quiet_env : Env :=
  mkEnv (fun _ => 0) (fun _ => 1%float) Writable
    (fun _ => false) (fun _ => None) 4300.

(** The same surroundings with a disk that cannot be opened for writing. *)
Definition broken_disk_env : Env :=
  mkEnv (fun _ => 0) (fun _ => 1%float) OpenFails
    (fun _ => false) (fun _ => None) 4300.

(** Nothing drawn, nothing timed, no high-score file yet. *)
Definition fresh_world : World := mkWorld 0 0 Missing.

(** A high-score file that holds a negative literal. *)
Definition minus_five_world : World := mkWorld 0 0 (Content (ascii_text "-5")).





(** A snake curled up in a two-by-two square, heading for its own tail. *)
Definition curled : Session :=
  mkSession [(1, 1); (1, 2); (2, 2); (2, 1)] (5, 5) None RIGHT 3 7 false
    SNAKE_SPEED_NORMAL false 0%float 0%float.

(** [curled] one tick later. *)
Definition uncurled : Session :=
  mkSession [(2, 1); (1, 1); (1, 2); (2, 2)] (5, 5) None RIGHT 3 7 false
    SNAKE_SPEED_NORMAL false 0%float 0%float.

(** A snake of length one with the food right in front of it. *)
Definition hungry : Session :=
  mkSession [(10, 10)] (11, 10) None RIGHT 0 0 false
    SNAKE_SPEED_NORMAL false 0%float 0%float.

(** [hungry] one tick later, in [quiet_env]. *)
Definition fed : Session :=
  mkSession [(11, 10); (10, 10)] (0, 0) None RIGHT 1 0 false
    SNAKE_SPEED_NORMAL false 0%float 0%float.

(** About to run into the right wall with a score above the high score. *)
Definition doomed : Session :=
  mkSession [(39, 10); (38, 10)] (5, 5) None RIGHT 3 2 false
    SNAKE_SPEED_NORMAL false 0%float 0%float.

(** [doomed] after the move, at the game-over test. *)
Definition crashed : Session :=
  mkSession [(40, 10); (39, 10)] (5, 5) None RIGHT 3 2 false
    SNAKE_SPEED_NORMAL false 0%float 0%float.

(** [doomed] after a tick that could save the new high score. *)
Definition record_set : Session :=
  mkSession [(40, 10); (39, 10)] (5, 5) None RIGHT 3 3 false
    SNAKE_SPEED_NORMAL false 0%float 0%float.

(** A paused session. *)
Definition napping : Session :=
  mkSession [(10, 10); (9, 10)] (11, 10) (Some (3, 3)) RIGHT 4 9 true
    SNAKE_SPEED_NORMAL false 0%float 0%float.

(** A snake of length two walking along the top row towards the left wall. *)
Definition at_left_wall : Session :=
  mkSession [(0, 0); (1, 0)] (5, 5) None LEFT 1 7 false
    SNAKE_SPEED_NORMAL false 0%float 0%float.

(** [at_left_wall] one tick later. *)
Definition through_left_wall : Session :=
  mkSession [(-1, 0); (0, 0)] (5, 5) None LEFT 1 7 false
    SNAKE_SPEED_NORMAL false 0%float 0%float.

(** A clock that stands at six seconds. *)
Definition late_env : Env :=
  mkEnv (fun _ => 0) (fun _ => 6%float) Writable
    (fun _ => false) (fun _ => None) 4300.

(** A boosted snake whose boost started at time 0, with a power-up waiting
    elsewhere. *)
Definition boosted : Session :=
  mkSession [(10, 10)] (5, 5) (Some (3, 3)) RIGHT 0 0 false
    SNAKE_SPEED_BOOST true 0%float 0%float.

(** [boosted] one tick later, at six seconds. *)
Definition slowed : Session :=
  mkSession [(11, 10)] (5, 5) (Some (3, 3)) RIGHT 0 0 false
    SNAKE_SPEED_NORMAL false 0%float 0%float.

(** About to step onto the power-up, at a time when none is due. *)
Definition reaching : Session :=
  mkSession [(10, 10)] (5, 5) (Some (11, 10)) RIGHT 0 0 false
    SNAKE_SPEED_NORMAL false 0%float 0%float.

(** [reaching] one tick later, in [quiet_env]. *)
Definition reached : Session :=
  mkSession [(11, 10)] (5, 5) None RIGHT 0 0 false
    SNAKE_SPEED_BOOST true 1%float 0%float.

(** A session whose snake has no segment: no run of the game produces it. *)
Definition bodiless : Session :=
  mkSession [] (5, 5) None RIGHT 0 0 false
    SNAKE_SPEED_NORMAL false 0%float 0%float.

(** A clock that stands one rounding step past twenty seconds. *)
Definition spawn_edge_env : Env :=
  mkEnv (fun _ => 0) (fun _ => 0x1.4000000000001p+4%float) Writable
    (fun _ => false) (fun _ => None) 4300.

(** No power-up on the board, the last one spawned three quarters of that
    rounding step after time 0: the difference of the two readings exceeds
    twenty seconds, and as a float it is twenty. *)
Definition waiting : Session :=
  mkSession [(10, 10)] (5, 5) None RIGHT 0 0 false
    SNAKE_SPEED_NORMAL false 0%float 0x1.8p-49%float.

(** [waiting] one tick later, in [spawn_edge_env]. *)
Definition still_waiting : Session :=
  mkSession [(11, 10)] (5, 5) None RIGHT 0 0 false
    SNAKE_SPEED_NORMAL false 0%float 0x1.8p-49%float.

(** A clock that stands one rounding step past five seconds. *)
Definition boost_edge_env : Env :=
  mkEnv (fun _ => 0) (fun _ => 0x1.4000000000001p+2%float) Writable
    (fun _ => false) (fun _ => None) 4300.

(** A boost that started three quarters of that rounding step after time 0,
    with a power-up spawned just now. *)
Definition long_boost : Session :=
  mkSession [(10, 10)] (5, 5) None RIGHT 0 0 false
    SNAKE_SPEED_BOOST true 0x1.8p-51%float 0x1.4000000000001p+2%float.

(** [long_boost] one tick later, in [boost_edge_env]: the boost is still
    on. *)
Definition long_boost_kept : Session :=
  mkSession [(11, 10)] (5, 5) None RIGHT 0 0 false
    SNAKE_SPEED_BOOST true 0x1.8p-51%float 0x1.4000000000001p+2%float.


(** The same surroundings with a disk that cannot be opened for writing. *)
Definition unlucky_env : Env :=
  mkEnv (fun n => match n with 0%nat => 21 | 1%nat => 15 | _ => 0 end)
    (fun _ => 1%float) OpenFails (fun _ => false) (fun _ => None) 4300.

(** Where nineteen ticks without input take a fresh session in these
    surroundings: one food eaten, the right wall ahead. *)
Definition last_step : Session :=
  mkSession [(39, 15); (38, 15)] (0, 0) None RIGHT 1 0 false
    SNAKE_SPEED_NORMAL false 0%float 1%float.


(** * Properties *)

(** ** Reasoning about the monad *)

Lemma bind_Done {A B} (m : M A) (f : A -> M B) env w b w' :
  bind m f env w = Done b w' ->
  exists a w1, m env w = Done a w1 /\ f a env w1 = Done b w'.
Proof.
  unfold bind. destruct (m env w) as [a w1| |]; try discriminate.
  intros H. exists a, w1. split; [reflexivity | exact H].
Qed.

Lemma bind_step {A B} (m : M A) (f : A -> M B) env w a w1 :
  m env w = Done a w1 -> bind m f env w = f a env w1.
Proof. unfold bind. intros ->. reflexivity. Qed.

Lemma bind_Uncaught {A B} (m : M A) (f : A -> M B) env w e w1 :
  m env w = Uncaught e w1 -> bind m f env w = Uncaught e w1.
Proof. unfold bind. intros ->. reflexivity. Qed.

Lemma ret_Done {A} (a b : A) env w w' :
  ret a env w = Done b w' -> a = b /\ w = w'.
Proof. unfold ret. intros H. injection H as -> ->. split; reflexivity. Qed.

(** Splits a hypothesis about a sequence of commands into one per command. *)
Ltac split_bind H :=
  let a := fresh "a" in
  let w1 := fresh "w" in
  let H1 := fresh "Hrun" in
  apply bind_Done in H; destruct H as (a & w1 & H1 & H).

(** Splits a conjunction in the goal without touching implications. *)
Ltac split_ands :=
  repeat match goal with |- _ /\ _ => split end.

(** ** Cells and lists *)

Lemma cell_eqb_eq (a b : Cell) : cell_eqb a b = true <-> a = b.
Proof.
  destruct a as [ax ay], b as [bx by_]. unfold cell_eqb. simpl.
  rewrite andb_true_iff, !Z.eqb_eq. split.
  - intros [-> ->]. reflexivity.
  - intros H. injection H as -> ->. split; reflexivity.
Qed.

Lemma cell_eqb_refl (a : Cell) : cell_eqb a a = true.
Proof. apply cell_eqb_eq. reflexivity. Qed.

Lemma cell_in_In (c : Cell) (cells : list Cell) :
  cell_in c cells = true <-> In c cells.
Proof.
  unfold cell_in. rewrite existsb_exists. split.
  - intros (x & Hx & Heq). apply cell_eqb_eq in Heq. subst x. exact Hx.
  - intros H. exists c. split; [exact H | apply cell_eqb_refl].
Qed.

Lemma cell_in_false (c : Cell) (cells : list Cell) :
  cell_in c cells = false <-> ~ In c cells.
Proof.
  rewrite <- cell_in_In. destruct (cell_in c cells); split; intros H.
  - discriminate.
  - exfalso. apply H. reflexivity.
  - intros H'. discriminate.
  - reflexivity.
Qed.

Lemma removelast_cons2 {A} (a b : A) (l : list A) :
  removelast (a :: b :: l) = a :: removelast (b :: l).
Proof. reflexivity. Qed.

Lemma length_removelast_cons {A} (a : A) (l : list A) :
  List.length (removelast (a :: l)) = List.length l.
Proof.
  revert a. induction l as [|b l IH]; intros a.
  - reflexivity.
  - rewrite removelast_cons2. cbn [List.length]. rewrite IH. reflexivity.
Qed.

(** In a list without repetition the last element occurs nowhere before. *)
Lemma last_not_in_removelast {A} (l : list A) (d : A) :
  NoDup l -> ~ In (last l d) (removelast l).
Proof.
  induction l as [|a l IH]; intros Hnd.
  - simpl. intros [].
  - destruct l as [|b l].
    + simpl. intros [].
    + rewrite removelast_cons2.
      change (last (a :: b :: l) d) with (last (b :: l) d).
      inversion Hnd as [|x xs Hnotin Hnd']; subst.
      intros [Heq | Hin].
      * apply Hnotin. rewrite Heq.
        destruct (exists_last (l := b :: l)) as (l' & z & Hz);
          [discriminate|].
        rewrite Hz. rewrite last_last. apply in_or_app. right. left.
        reflexivity.
      * exact (IH Hnd' Hin).
Qed.

(** ** Entity placement *)

Lemma advance_rng_add n m w :
  advance_rng n (advance_rng m w) = advance_rng (m + n) w.
Proof.
  unfold advance_rng. simpl. rewrite Nat.add_assoc. reflexivity.
Qed.

Lemma draw_in_grid env pos : in_grid (draw env pos).
Proof.
  unfold in_grid, draw. simpl.
  change (GRID_WIDTH - 1 - 0 + 1) with 40.
  change (GRID_HEIGHT - 1 - 0 + 1) with 30.
  change GRID_WIDTH with 40. change GRID_HEIGHT with 30.
  pose proof (Z.mod_pos_bound (rng env pos) 40 ltac:(lia)).
  pose proof (Z.mod_pos_bound (rng env (S pos)) 30 ltac:(lia)).
  lia.
Qed.

(** One round of the loop, unfolded. *)
Lemma create_food_round fuel body env w :
  create_food (S fuel) body env w =
  if negb (cell_in (draw env (rng_pos w)) body)
  then Done (draw env (rng_pos w)) (advance_rng 2 w)
  else create_food fuel body env (advance_rng 2 w).
Proof.
  assert (Hw : mkWorld (S (S (rng_pos w))) (clock_pos w) (file w)
               = advance_rng 2 w).
  { unfold advance_rng. f_equal. lia. }
  simpl. unfold bind, randint, draw. simpl. rewrite Hw.
  destruct (negb _); reflexivity.
Qed.

Lemma create_powerup_is_create_food fuel body :
  create_powerup fuel body = create_food fuel body.
Proof.
  induction fuel as [|fuel IH]; simpl.
  - reflexivity.
  - rewrite IH. reflexivity.
Qed.

(** Whatever the loop returns was drawn at some round, is free, and every
    earlier round proposed a covered cell. *)
Lemma create_food_Done fuel body env w c w' :
  create_food fuel body env w = Done c w' ->
  exists k, (k < fuel)%nat /\
    c = draw env (rng_pos w + 2 * k) /\
    w' = advance_rng (2 * S k) w /\
    cell_in c body = false /\
    forall j, (j < k)%nat -> cell_in (draw env (rng_pos w + 2 * j)) body = true.
Proof.
  revert w. induction fuel as [|fuel IH]; intros w H.
  - discriminate.
  - rewrite create_food_round in H.
    destruct (cell_in (draw env (rng_pos w)) body) eqn:Hin; simpl in H.
    + apply IH in H. destruct H as (k & Hk & Hc & Hw & Hfree & Hbefore).
      exists (S k). simpl rng_pos in *.
      repeat split.
      * lia.
      * rewrite Hc. f_equal. lia.
      * rewrite Hw, advance_rng_add. f_equal. lia.
      * exact Hfree.
      * intros j Hj. destruct j as [|j].
        -- rewrite Nat.mul_0_r, Nat.add_0_r. exact Hin.
        -- specialize (Hbefore j ltac:(lia)).
           replace (rng_pos w + 2 * S j)%nat with (rng_pos w + 2 + 2 * j)%nat
             by lia.
           exact Hbefore.
    + injection H as <- <-. exists 0%nat.
      rewrite Nat.mul_0_r, Nat.add_0_r.
      repeat split; try lia; try assumption.
Qed.

(** If round [k] is the first to propose a free cell, any fuel above [k]
    lets the loop return it. *)
Lemma create_food_finds k : forall fuel body env w,
  (forall j, (j < k)%nat ->
     cell_in (draw env (rng_pos w + 2 * j)) body = true) ->
  cell_in (draw env (rng_pos w + 2 * k)) body = false ->
  (k < fuel)%nat ->
  create_food fuel body env w =
  Done (draw env (rng_pos w + 2 * k)) (advance_rng (2 * S k) w).
Proof.
  induction k as [|k IH]; intros fuel body env w Hbefore Hfree Hfuel;
    (destruct fuel as [|fuel]; [lia|]); rewrite create_food_round.
  - rewrite Nat.mul_0_r, Nat.add_0_r in Hfree. rewrite Hfree. simpl.
    rewrite Nat.add_0_r. reflexivity.
  - pose proof (Hbefore 0%nat ltac:(lia)) as H0.
    rewrite Nat.mul_0_r, Nat.add_0_r in H0. rewrite H0. simpl negb. cbv iota.
    rewrite (IH fuel body env (advance_rng 2 w)).
    + simpl rng_pos. rewrite advance_rng_add. f_equal.
      * f_equal. lia.
      * f_equal. lia.
    + intros j Hj. simpl rng_pos.
      replace (rng_pos w + 2 + 2 * j)%nat with (rng_pos w + 2 * S j)%nat by lia.
      apply Hbefore. lia.
    + simpl rng_pos.
      replace (rng_pos w + 2 + 2 * k)%nat with (rng_pos w + 2 * S k)%nat by lia.
      exact Hfree.
    + lia.
Qed.

(** On a fully covered grid no round can succeed, whatever the fuel. *)
Lemma create_food_full body :
  (forall c, in_grid c -> cell_in c body = true) ->
  forall fuel env w, create_food fuel body env w = OutOfFuel.
Proof.
  intros Hfull fuel env. induction fuel as [|fuel IH]; intros w.
  - reflexivity.
  - rewrite create_food_round, (Hfull _ (draw_in_grid env (rng_pos w))).
    simpl. apply IH.
Qed.

(** ** Movement and collision *)

Lemma off_grid_iff c : off_grid c = true <-> out_of_bounds c.
Proof.
  unfold off_grid, out_of_bounds.
  rewrite !orb_true_iff, !Z.ltb_lt, !Z.geb_le. lia.
Qed.

Lemma out_of_bounds_not_in_grid c : out_of_bounds c <-> ~ in_grid c.
Proof. unfold out_of_bounds, in_grid. lia. Qed.

Lemma move_snake_cons h t d env w :
  move_snake (h :: t) d env w = Done (moved_head d h :: h :: t) w.
Proof. destruct h as [x y], d; reflexivity. Qed.

Lemma check_collision_cons h t env w :
  check_collision (h :: t) env w = Done (off_grid h || cell_in h t) w.
Proof.
  unfold check_collision, off_grid. simpl. unfold bind, ret. simpl.
  destruct (_ || _ || _ || _); simpl; [reflexivity|].
  destruct (cell_in h t); reflexivity.
Qed.

Lemma time_time_Done env w t w' :
  time_time env w = Done t w' ->
  rng_pos w' = rng_pos w /\ file w' = file w.
Proof.
  unfold time_time. intros H. injection H as _ <-. split; reflexivity.
Qed.

Lemma load_high_score_run env w :
  load_high_score env w = Done (loaded env w) w.
Proof.
  unfold load_high_score, try_except, bind, read_file, int_of_text, loaded.
  destruct (file w) as [| | |text]; try reflexivity.
  destruct (py_int env text); reflexivity.
Qed.

(** ** The stages of one update *)

Lemma same_core_refl s : same_core s s.
Proof. unfold same_core. repeat split. Qed.

Lemma same_core_trans s1 s2 s3 :
  same_core s1 s2 -> same_core s2 s3 -> same_core s1 s3.
Proof.
  unfold same_core.
  intros (A1 & A2 & A3 & A4 & A5 & A6) (B1 & B2 & B3 & B4 & B5 & B6).
  repeat split; congruence.
Qed.

(** The outcome of the first stage, case by case. *)
Lemma eat_or_shrink_Done fuel s env w s1 w1 :
  eat_or_shrink fuel s env w = Done s1 w1 ->
  exists h t, snake_body s = h :: t /\
    let nh := moved_head (direction s) h in
    (cell_eqb nh (food_pos s) = true ->
       exists food,
         create_food fuel (nh :: h :: t) env w = Done food w1 /\
         s1 = set_food_pos food
                (set_score (score s + 1) (set_snake_body (nh :: h :: t) s))) /\
    (cell_eqb nh (food_pos s) = false ->
       s1 = set_snake_body (removelast (nh :: h :: t)) s /\ w1 = w).
Proof.
  unfold eat_or_shrink. intros H.
  destruct (snake_body s) as [|h t] eqn:Hbody.
  - discriminate.
  - exists h, t. split; [reflexivity|]. cbv zeta.
    rewrite (bind_step _ _ _ _ _ _ (move_snake_cons h t (direction s) env w))
      in H.
    unfold item0 in H. rewrite (bind_step _ _ env w (moved_head (direction s) h) w)
      in H by reflexivity.
    destruct (cell_eqb (moved_head (direction s) h) (food_pos s)).
    + split; [intros _ | discriminate].
      split_bind H. apply ret_Done in H. destruct H as [<- <-].
      exists a. split; [assumption | reflexivity].
    + split; [discriminate | intros _].
      unfold list_pop in H.
      rewrite (bind_step _ _ env w
                 (removelast (moved_head (direction s) h :: h :: t)) w)
        in H by reflexivity.
      apply ret_Done in H. destruct H as [<- <-]. split; reflexivity.
Qed.

Lemma take_powerup_Done s env w s' w' :
  take_powerup s env w = Done s' w' ->
  same_core s s' /\ file w' = file w /\ rng_pos w' = rng_pos w /\
  (powerup_pos s' = powerup_pos s \/ powerup_pos s' = None).
Proof.
  unfold take_powerup. intros H.
  destruct (powerup_pos s) as [p|] eqn:Hp.
  - split_bind H. destruct (cell_eqb a p).
    + split_bind H. apply ret_Done in H. destruct H as [<- <-].
      unfold item0 in Hrun. destruct (snake_body s); [discriminate|].
      apply ret_Done in Hrun. destruct Hrun as [_ <-].
      apply time_time_Done in Hrun0. destruct Hrun0 as [Hr Hf].
      repeat split; auto.
    + apply ret_Done in H. destruct H as [<- <-].
      unfold item0 in Hrun. destruct (snake_body s); [discriminate|].
      apply ret_Done in Hrun. destruct Hrun as [_ <-].
      repeat split; auto.
  - apply ret_Done in H. destruct H as [<- <-]. repeat split; auto.
Qed.

Lemma expire_boost_Done s env w s' w' :
  expire_boost s env w = Done s' w' ->
  same_core s s' /\ file w' = file w /\ rng_pos w' = rng_pos w /\
  powerup_pos s' = powerup_pos s.
Proof.
  unfold expire_boost. intros H.
  destruct (powerup_active s).
  - split_bind H. apply time_time_Done in Hrun. destruct Hrun as [Hr Hf].
    destruct (elapsed_over _ _ _); apply ret_Done in H; destruct H as [<- <-];
      repeat split; auto.
  - apply ret_Done in H. destruct H as [<- <-]. repeat split; auto.
Qed.

Lemma spawn_powerup_Done fuel s env w s' w' :
  spawn_powerup fuel s env w = Done s' w' ->
  same_core s s' /\ file w' = file w /\
  (powerup_pos s' = powerup_pos s \/
   exists p, powerup_pos s' = Some p /\ cell_in p (snake_body s') = false /\
             in_grid p).
Proof.
  unfold spawn_powerup. intros H. split_bind H.
  apply time_time_Done in Hrun. destruct Hrun as [Hr Hf].
  destruct (_ && _).
  - split_bind H. split_bind H. apply ret_Done in H. destruct H as [<- <-].
    apply time_time_Done in Hrun0. destruct Hrun0 as [Hr' Hf'].
    rewrite create_powerup_is_create_food in Hrun.
    apply create_food_Done in Hrun.
    destruct Hrun as (k & _ & Hc & Hw & Hfree & _).
    split; [repeat split|]. split.
    + rewrite Hf', Hw. simpl. exact Hf.
    + right. exists a0. simpl. split; [reflexivity|]. split; [assumption|].
      rewrite Hc. apply draw_in_grid.
  - apply ret_Done in H. destruct H as [<- <-].
    split; [apply same_core_refl|]. split; [exact Hf | left; reflexivity].
Qed.

(** The game-over block: what it decides and what it writes. *)
Lemma settle_collision_Done s env w s' st w' :
  settle_collision s env w = Done (s', st) w' ->
  exists h t, snake_body s = h :: t /\
    (st = GameOver <-> off_grid h || cell_in h t = true) /\
    snake_body s' = snake_body s /\ food_pos s' = food_pos s /\
    powerup_pos s' = powerup_pos s /\ score s' = score s /\
    direction s' = direction s /\ paused s' = paused s /\
    ((st = GameOver /\ score s > high_score s) ->
       high_score s' = score s /\ file w' = Content (py_str (score s)) /\
       disk env = Writable) /\
    ((st = Running \/ score s <= high_score s) ->
       high_score s' = high_score s /\ w' = w).
Proof.
  unfold settle_collision. intros H.
  destruct (snake_body s) as [|h t] eqn:Hbody; [discriminate|].
  exists h, t. split; [reflexivity|].
  rewrite (bind_step _ _ _ _ _ _ (check_collision_cons h t env w)) in H.
  destruct (off_grid h || cell_in h t).
  - destruct (score s >? high_score s) eqn:Hcmp.
    + split_bind H. apply ret_Done in H. destruct H as [H <-].
      injection H as <- <-.
      unfold save_high_score in Hrun. simpl in Hrun.
      destruct (disk env) eqn:Hdisk; try discriminate.
      injection Hrun as _ <-.
      rewrite Z.gtb_ltb, Z.ltb_lt in Hcmp.
      split_ands; simpl; try easy.
      intros [E | E]; [discriminate | lia].
    + apply ret_Done in H. destruct H as [H <-]. injection H as <- <-.
      rewrite Z.gtb_ltb, Z.ltb_ge in Hcmp.
      split_ands; simpl; try easy.
  - apply ret_Done in H. destruct H as [H <-]. injection H as <- <-.
    split_ands; simpl; try easy.
Qed.

(** Everything before the game-over test, seen from outside: the first
    stage fixes body, food and score; the later stages leave them alone. *)
Lemma advance_Done fuel s env w s4 w4 :
  advance fuel s env w = Done s4 w4 ->
  exists s1 w1,
    eat_or_shrink fuel s env w = Done s1 w1 /\
    same_core s1 s4 /\ file w4 = file w1 /\
    (powerup_pos s4 = powerup_pos s1 \/ powerup_pos s4 = None \/
     exists p, powerup_pos s4 = Some p /\ cell_in p (snake_body s4) = false /\
               in_grid p).
Proof.
  unfold advance. intros H.
  split_bind H. split_bind H. split_bind H.
  apply take_powerup_Done in Hrun0.
  destruct Hrun0 as (C2 & F2 & _ & P2).
  apply expire_boost_Done in Hrun1.
  destruct Hrun1 as (C3 & F3 & _ & P3).
  apply spawn_powerup_Done in H.
  destruct H as (C4 & F4 & P4).
  exists a, w0. split; [assumption|]. split.
  - eapply same_core_trans; [exact C2|].
    eapply same_core_trans; [exact C3 | exact C4].
  - split; [congruence|].
    destruct P4 as [P4 | P4].
    + destruct P2 as [P2 | P2]; [left | right; left]; congruence.
    + right. right. exact P4.
Qed.

Lemma post_move_body_head s h t :
  exists rest, post_move_body s h t = moved_head (direction s) h :: rest /\
    rest = if cell_eqb (moved_head (direction s) h) (food_pos s)
           then h :: t else removelast (h :: t).
Proof.
  unfold post_move_body.
  destruct (cell_eqb _ _).
  - eexists. split; reflexivity.
  - rewrite removelast_cons2. eexists. split; reflexivity.
Qed.

(** One update, summarised: every later theorem about a tick reads off this
    description. *)
Lemma update_Done fuel s env w s' st w' :
  update fuel s env w = Done (s', st) w' ->
  exists h t, snake_body s = h :: t /\
    let nh := moved_head (direction s) h in
    let post := post_move_body s h t in
    snake_body s' = post /\
    (st = GameOver <-> off_grid nh || cell_in nh (tl post) = true) /\
    score s' = (if cell_eqb nh (food_pos s) then score s + 1 else score s) /\
    (cell_eqb nh (food_pos s) = true ->
       food_pos s' <> food_pos s /\ cell_in (food_pos s') post = false /\
       in_grid (food_pos s')) /\
    (cell_eqb nh (food_pos s) = false -> food_pos s' = food_pos s) /\
    direction s' = direction s /\ paused s' = paused s /\
    (powerup_pos s' = powerup_pos s \/ powerup_pos s' = None \/
     exists p, powerup_pos s' = Some p /\ cell_in p post = false /\
               in_grid p) /\
    ((st = GameOver /\ score s' > high_score s) ->
       high_score s' = score s' /\ file w' = Content (py_str (score s')) /\
       disk env = Writable) /\
    ((st = Running \/ score s' <= high_score s) ->
       high_score s' = high_score s /\ file w' = file w).
Proof.
  unfold update. intros H. split_bind H.
  apply advance_Done in Hrun.
  destruct Hrun as (s1 & w1 & Heat & Hcore & Hfile & Hpow).
  destruct Hcore as (Cb & Cf & Cs & Ch & Cd & Cp).
  apply eat_or_shrink_Done in Heat.
  destruct Heat as (h & t & Hbody & Heats & Hmoves). cbv zeta in Heats, Hmoves.
  apply settle_collision_Done in H.
  destruct H as (h4 & t4 & Hbody4 & Hst & Sb & Sf & Sp & Ss & Sd & Spa
                 & Hbeat & Hkeep).
  exists h, t. split; [exact Hbody|]. cbv zeta.
  unfold post_move_body.
  destruct (cell_eqb (moved_head (direction s) h) (food_pos s)) eqn:Hfood.
  - destruct (Heats eq_refl) as (food & Hcreate & ->). clear Heats Hmoves.
    simpl in *.
    apply create_food_Done in Hcreate.
    destruct Hcreate as (k & _ & Hc & Hw & Hfree & _).
    assert (Hfw : file w1 = file w) by (rewrite Hw; reflexivity).
    rewrite Cb in Hbody4. injection Hbody4 as <- <-.
    split_ands.
    + congruence.
    + exact Hst.
    + congruence.
    + intros _. rewrite Sf, Cf. split_ands.
      * intros Heq. apply cell_eqb_eq in Hfood. rewrite <- Hfood in Heq.
        rewrite Heq in Hfree. simpl in Hfree.
        rewrite cell_eqb_refl in Hfree. discriminate.
      * exact Hfree.
      * rewrite Hc. apply draw_in_grid.
    + discriminate.
    + congruence.
    + congruence.
    + rewrite Sp. destruct Hpow as [P | [P | (p & P1 & P2 & P3)]].
      * left. exact P.
      * right. left. exact P.
      * right. right. exists p. rewrite Cb in P2. split_ands; assumption.
    + rewrite Ss, <- Ch. intros Hgo.
      destruct (Hbeat Hgo) as (B1 & B2 & B3). auto.
    + rewrite Ss, <- Ch. intros Hgo.
      destruct (Hkeep Hgo) as (B1 & ->). split; congruence.
  - destruct (Hmoves eq_refl) as (-> & ->). clear Heats Hmoves.
    unfold set_snake_body in *.
    cbn [snake_body food_pos score high_score direction paused powerup_pos]
      in *.
    rewrite Cb in Hbody4. rewrite removelast_cons2 in Hbody4.
    injection Hbody4 as <- <-.
    split_ands.
    + congruence.
    + rewrite removelast_cons2. exact Hst.
    + congruence.
    + discriminate.
    + intros _. congruence.
    + congruence.
    + congruence.
    + rewrite Sp. destruct Hpow as [P | [P | (p & P1 & P2 & P3)]].
      * left. exact P.
      * right. left. exact P.
      * right. right. exists p. rewrite Cb in P2. split_ands; assumption.
    + rewrite Ss, <- Ch. intros Hgo.
      destruct (Hbeat Hgo) as (B1 & B2 & B3). auto.
    + rewrite Ss, <- Ch. intros Hgo.
      destruct (Hkeep Hgo) as (B1 & ->). split; congruence.
Qed.

(** ** A tick produces a result *)

Lemma create_food_returns fuel : forall body env w,
  (exists k, (k < fuel)%nat /\
     cell_in (draw env (rng_pos w + 2 * k)) body = false) ->
  exists c w', create_food fuel body env w = Done c w'.
Proof.
  induction fuel as [|fuel IH]; intros body env w (k & Hk & Hfree).
  - lia.
  - rewrite create_food_round.
    destruct (cell_in (draw env (rng_pos w)) body) eqn:Hhere; simpl.
    + destruct k as [|k].
      * rewrite Nat.mul_0_r, Nat.add_0_r in Hfree. congruence.
      * apply IH. exists k. split; [lia|]. simpl rng_pos.
        replace (rng_pos w + 2 + 2 * k)%nat with (rng_pos w + 2 * S k)%nat
          by lia.
        exact Hfree.
    + eexists. eexists. reflexivity.
Qed.

Lemma in_removelast {A} (x : A) (l : list A) : In x (removelast l) -> In x l.
Proof.
  induction l as [|a l IH]; [intros []|].
  destruct l as [|b l]; [intros []|].
  rewrite removelast_cons2. intros [-> | H]; [left; reflexivity|].
  right. exact (IH H).
Qed.

Lemma fair_subset env fuel big small :
  (forall c, In c small -> In c big) -> fair env fuel big -> fair env fuel small.
Proof.
  intros Hsub Hfair pos. destruct (Hfair pos) as (k & Hk & Hfree).
  exists k. split; [exact Hk|].
  apply cell_in_false. intros Hin. apply cell_in_false in Hfree.
  exact (Hfree (Hsub _ Hin)).
Qed.

Lemma eat_or_shrink_total fuel s env w h t :
  snake_body s = h :: t ->
  fair env fuel (moved_head (direction s) h :: h :: t) ->
  exists s1 w1, eat_or_shrink fuel s env w = Done s1 w1 /\
                snake_body s1 = post_move_body s h t.
Proof.
  intros Hbody Hfair. unfold eat_or_shrink, post_move_body. rewrite Hbody.
  rewrite (bind_step _ _ _ _ _ _ (move_snake_cons h t (direction s) env w)).
  unfold item0.
  rewrite (bind_step _ _ env w (moved_head (direction s) h) w) by reflexivity.
  destruct (cell_eqb (moved_head (direction s) h) (food_pos s)).
  - destruct (create_food_returns fuel _ env w (Hfair (rng_pos w)))
      as (c & w1 & Hc).
    rewrite (bind_step _ _ _ _ _ _ Hc). eexists. eexists.
    split; reflexivity.
  - eexists. eexists. split; reflexivity.
Qed.

Lemma take_powerup_total s env w h t :
  snake_body s = h :: t -> exists s' w', take_powerup s env w = Done s' w'.
Proof.
  intros Hbody. unfold take_powerup. rewrite Hbody.
  destruct (powerup_pos s) as [p|]; [|eexists; eexists; reflexivity].
  unfold item0. rewrite (bind_step _ _ env w h w) by reflexivity.
  destruct (cell_eqb h p); eexists; eexists; reflexivity.
Qed.

Lemma expire_boost_total s env w :
  exists s' w', expire_boost s env w = Done s' w'.
Proof.
  unfold expire_boost.
  destruct (powerup_active s); [|eexists; eexists; reflexivity].
  unfold bind, time_time.
  destruct (elapsed_over _ _ _); eexists; eexists; reflexivity.
Qed.

Lemma time_time_run env w :
  time_time env w =
  Done (clock env (clock_pos w))
       (mkWorld (rng_pos w) (S (clock_pos w)) (file w)).
Proof. reflexivity. Qed.

Lemma spawn_powerup_total fuel s env w :
  fair env fuel (snake_body s) ->
  exists s' w', spawn_powerup fuel s env w = Done s' w'.
Proof.
  intros Hfair. unfold spawn_powerup.
  rewrite (bind_step _ _ _ _ _ _ (time_time_run env w)).
  destruct (_ && _); [|eexists; eexists; reflexivity].
  rewrite (create_powerup_is_create_food fuel (snake_body s)).
  set (w1 := mkWorld (rng_pos w) (S (clock_pos w)) (file w)).
  destruct (create_food_returns fuel (snake_body s) env w1
              (Hfair (rng_pos w1))) as (c & w2 & Hc).
  rewrite (bind_step _ _ _ _ _ _ Hc).
  rewrite (bind_step _ _ _ _ _ _ (time_time_run env w2)).
  eexists. eexists. reflexivity.
Qed.

Lemma settle_collision_total s env w h t :
  snake_body s = h :: t -> disk env = Writable ->
  exists r w', settle_collision s env w = Done r w'.
Proof.
  intros Hbody Hdisk. unfold settle_collision. rewrite Hbody.
  rewrite (bind_step _ _ _ _ _ _ (check_collision_cons h t env w)).
  destruct (off_grid h || cell_in h t); [|eexists; eexists; reflexivity].
  destruct (score s >? high_score s); [|eexists; eexists; reflexivity].
  unfold bind, save_high_score. rewrite Hdisk.
  eexists. eexists. reflexivity.
Qed.

(** With a non-empty snake, a writable disk and a fair random source, one
    update always runs to completion. *)
Lemma update_total fuel s env w h t :
  snake_body s = h :: t -> disk env = Writable ->
  fair env fuel (moved_head (direction s) h :: h :: t) ->
  exists r w', update fuel s env w = Done r w'.
Proof.
  intros Hbody Hdisk Hfair.
  destruct (eat_or_shrink_total fuel s env w h t Hbody Hfair)
    as (s1 & w1 & H1 & Hb1).
  destruct (post_move_body_head s h t) as (rest & Hhead & Hrest).
  rewrite Hhead in Hb1.
  destruct (take_powerup_total s1 env w1 _ _ Hb1) as (s2 & w2 & H2).
  destruct (take_powerup_Done _ _ _ _ _ H2) as ((Hb2 & _) & _).
  destruct (expire_boost_total s2 env w2) as (s3 & w3 & H3).
  destruct (expire_boost_Done _ _ _ _ _ H3) as ((Hb3 & _) & _).
  assert (Hfair3 : fair env fuel (snake_body s3)).
  { rewrite Hb3, Hb2, Hb1.
    apply (fair_subset env fuel (moved_head (direction s) h :: h :: t));
      [|exact Hfair].
    intros c [<- | Hin]; [left; reflexivity | right].
    subst rest. destruct (cell_eqb _ _); [exact Hin|].
    apply in_removelast. exact Hin. }
  destruct (spawn_powerup_total fuel s3 env w3 Hfair3) as (s4 & w4 & H4).
  destruct (spawn_powerup_Done _ _ _ _ _ _ H4) as ((Hb4 & _) & _).
  assert (Hbody4 : snake_body s4 = moved_head (direction s) h :: rest)
    by congruence.
  destruct (settle_collision_total s4 env w4 _ _ Hbody4 Hdisk)
    as (r & w' & H5).
  assert (Hadv : advance fuel s env w = Done s4 w4).
  { unfold advance.
    rewrite (bind_step _ _ _ _ _ _ H1), (bind_step _ _ _ _ _ _ H2),
      (bind_step _ _ _ _ _ _ H3).
    exact H4. }
  exists r, w'. unfold update. rewrite (bind_step _ _ _ _ _ _ Hadv).
  exact H5.
Qed.

Lemma update_returns fuel s env w : forall h t,
  snake_body s = h :: t -> disk env = Writable ->
  fair env fuel (moved_head (direction s) h :: h :: t) ->
  exists s' st w', update fuel s env w = Done (s', st) w'.
Proof.
  intros h t Hbody Hdisk Hfair.
  destruct (update_total fuel s env w h t Hbody Hdisk Hfair)
    as ([s' st] & w' & H).
  exists s', st, w'. exact H.
Qed.

(** ** The stages of one update, exactly *)

Lemma update_stages fuel s env w s' st w' :
  update fuel s env w = Done (s', st) w' ->
  exists s1 w1 s2 w2 s3 w3 s4 w4,
    eat_or_shrink fuel s env w = Done s1 w1 /\
    take_powerup s1 env w1 = Done s2 w2 /\
    expire_boost s2 env w2 = Done s3 w3 /\
    spawn_powerup fuel s3 env w3 = Done s4 w4 /\
    settle_collision s4 env w4 = Done (s', st) w'.
Proof.
  unfold update, advance. intros H.
  split_bind H. split_bind Hrun. split_bind Hrun. split_bind Hrun.
  exists a0, w1, a1, w2, a2, w3, a, w0. split_ands; assumption.
Qed.

Lemma take_powerup_cases s env w s' w' :
  take_powerup s env w = Done s' w' ->
  (s' = s /\ w' = w /\
   forall p, powerup_pos s = Some p ->
             exists h t, snake_body s = h :: t /\ h <> p) \/
  (exists p t, powerup_pos s = Some p /\ snake_body s = p :: t /\
     s' = set_powerup_pos None
            (set_boost SNAKE_SPEED_BOOST true (clock env (clock_pos w)) s) /\
     w' = tick_clock w).
Proof.
  unfold take_powerup. intros H.
  destruct (powerup_pos s) as [p|] eqn:Hp.
  - destruct (snake_body s) as [|h t] eqn:Hbody; [discriminate|].
    unfold item0 in H. rewrite (bind_step _ _ env w h w) in H by reflexivity.
    destruct (cell_eqb h p) eqn:Heq.
    + apply cell_eqb_eq in Heq. subst h.
      rewrite (bind_step _ _ _ _ _ _ (time_time_run env w)) in H.
      apply ret_Done in H. destruct H as [<- <-].
      right. exists p, t. split_ands; reflexivity.
    + apply ret_Done in H. destruct H as [<- <-]. left. split_ands; try easy.
      intros q Hq. injection Hq as <-. exists h, t. split; [reflexivity|].
      intros ->. rewrite cell_eqb_refl in Heq. discriminate.
  - apply ret_Done in H. destruct H as [<- <-]. left. split_ands; easy.
Qed.

Lemma expire_boost_cases s env w s' w' :
  expire_boost s env w = Done s' w' ->
  (powerup_active s = false /\ s' = s /\ w' = w) \/
  (powerup_active s = true /\ w' = tick_clock w /\
   elapsed_over (clock env (clock_pos w)) (powerup_timer s)
     POWERUP_DURATION = false /\
   s' = s) \/
  (powerup_active s = true /\ w' = tick_clock w /\
   elapsed_over (clock env (clock_pos w)) (powerup_timer s)
     POWERUP_DURATION = true /\
   s' = set_boost SNAKE_SPEED_NORMAL false (powerup_timer s) s).
Proof.
  unfold expire_boost. intros H.
  destruct (powerup_active s).
  - rewrite (bind_step _ _ _ _ _ _ (time_time_run env w)) in H.
    destruct (elapsed_over _ _ _); apply ret_Done in H; destruct H as [<- <-].
    + right. right. split_ands; reflexivity.
    + right. left. split_ands; reflexivity.
  - apply ret_Done in H. destruct H as [<- <-]. left. split_ands; reflexivity.
Qed.

Lemma spawn_powerup_cases fuel s env w s' w' :
  spawn_powerup fuel s env w = Done s' w' ->
  (s' = s /\ w' = tick_clock w /\
   (elapsed_over (clock env (clock_pos w)) (last_powerup_spawn s)
          POWERUP_SPAWN_INTERVAL = false \/
    exists p, powerup_pos s = Some p)) \/
  (exists p w2,
     powerup_pos s = None /\
     elapsed_over (clock env (clock_pos w)) (last_powerup_spawn s)
          POWERUP_SPAWN_INTERVAL = true /\
     create_powerup fuel (snake_body s) env (tick_clock w) = Done p w2 /\
     s' = set_last_powerup_spawn (clock env (clock_pos w2))
            (set_powerup_pos (Some p) s) /\
     w' = tick_clock w2).
Proof.
  unfold spawn_powerup. intros H.
  rewrite (bind_step _ _ _ _ _ _ (time_time_run env w)) in H.
  fold (tick_clock w) in H.
  destruct (elapsed_over _ _ _) eqn:Hdue; simpl in H.
  - destruct (powerup_pos s) as [q|] eqn:Hq.
    + apply ret_Done in H. destruct H as [<- <-]. left.
      split_ands; try reflexivity. right. exists q. reflexivity.
    + split_bind H.
      rewrite (bind_step _ _ _ _ _ _ (time_time_run env w0)) in H.
      apply ret_Done in H. destruct H as [<- <-].
      right. exists a, w0. split_ands; try reflexivity. exact Hrun.
  - apply ret_Done in H. destruct H as [<- <-]. left.
    split_ands; try reflexivity. left. reflexivity.
Qed.

Lemma settle_collision_cases s env w s' st w' :
  settle_collision s env w = Done (s', st) w' ->
  (s' = s /\ w' = w) \/
  (s' = set_high_score (score s) s /\ st = GameOver /\
   score s > high_score s /\ disk env = Writable /\
   w' = mkWorld (rng_pos w) (clock_pos w) (Content (py_str (score s)))).
Proof.
  unfold settle_collision. intros H.
  destruct (snake_body s) as [|h t]; [discriminate|].
  rewrite (bind_step _ _ _ _ _ _ (check_collision_cons h t env w)) in H.
  destruct (off_grid h || cell_in h t).
  - destruct (score s >? high_score s) eqn:Hcmp.
    + split_bind H. apply ret_Done in H. destruct H as [H <-].
      injection H as <- <-.
      unfold save_high_score in Hrun. simpl in Hrun.
      destruct (disk env) eqn:Hdisk; try discriminate.
      injection Hrun as _ <-.
      rewrite Z.gtb_ltb, Z.ltb_lt in Hcmp.
      right. split_ands; try reflexivity. lia.
    + apply ret_Done in H. destruct H as [H <-]. injection H as <- <-.
      left. split; reflexivity.
  - apply ret_Done in H. destruct H as [H <-]. injection H as <- <-.
    left. split; reflexivity.
Qed.

(** ** The power-up part of one update, as a function of its inputs *)

Lemma eat_or_shrink_fields fuel s env w s1 w1 :
  eat_or_shrink fuel s env w = Done s1 w1 ->
  exists h t, snake_body s = h :: t /\
    snake_body s1 = post_move_body s h t /\
    powerup_pos s1 = powerup_pos s /\ speed s1 = speed s /\
    powerup_active s1 = powerup_active s /\
    powerup_timer s1 = powerup_timer s /\
    last_powerup_spawn s1 = last_powerup_spawn s /\
    clock_pos w1 = clock_pos w.
Proof.
  intros H. apply eat_or_shrink_Done in H.
  destruct H as (h & t & Hbody & Heats & Hmoves). cbv zeta in *.
  exists h, t. split; [exact Hbody|]. unfold post_move_body.
  destruct (cell_eqb (moved_head (direction s) h) (food_pos s)).
  - destruct (Heats eq_refl) as (food & Hcreate & ->).
    apply create_food_Done in Hcreate.
    destruct Hcreate as (k & _ & _ & -> & _).
    split_ands; reflexivity.
  - destruct (Hmoves eq_refl) as (-> & ->). split_ands; reflexivity.
Qed.

Lemma take_powerup_fun s env w s' w' h rest :
  snake_body s = h :: rest ->
  take_powerup s env w = Done s' w' ->
  s' = (if picks_up s h
        then set_powerup_pos None
               (set_boost SNAKE_SPEED_BOOST true (clock env (clock_pos w)) s)
        else s) /\
  w' = (if picks_up s h then tick_clock w else w).
Proof.
  unfold take_powerup, picks_up. intros Hbody H. rewrite Hbody in H.
  destruct (powerup_pos s) as [p|].
  - unfold item0 in H. rewrite (bind_step _ _ env w h w) in H by reflexivity.
    destruct (cell_eqb h p).
    + rewrite (bind_step _ _ _ _ _ _ (time_time_run env w)) in H.
      apply ret_Done in H. destruct H as [<- <-]. split; reflexivity.
    + apply ret_Done in H. destruct H as [<- <-]. split; reflexivity.
  - apply ret_Done in H. destruct H as [<- <-]. split; reflexivity.
Qed.

Lemma expire_boost_fun s env w s' w' :
  expire_boost s env w = Done s' w' ->
  s' = (if powerup_active s &&
           elapsed_over (clock env (clock_pos w)) (powerup_timer s)
     POWERUP_DURATION
        then set_boost SNAKE_SPEED_NORMAL false (powerup_timer s) s
        else s) /\
  w' = (if powerup_active s then tick_clock w else w).
Proof.
  unfold expire_boost. intros H. destruct (powerup_active s); simpl.
  - rewrite (bind_step _ _ _ _ _ _ (time_time_run env w)) in H.
    destruct (elapsed_over _ _ _); apply ret_Done in H; destruct H as [<- <-];
      split; reflexivity.
  - apply ret_Done in H. destruct H as [<- <-]. split; reflexivity.
Qed.

(** What one update does to the boost and the power-up, read off the inputs:
    the session, the clock and the position of the clock cursor. *)
Lemma update_boost_Done fuel s env w s' st w' :
  update fuel s env w = Done (s', st) w' ->
  exists h t, snake_body s = h :: t /\
    let nh := moved_head (direction s) h in
    let picked := picks_up s nh in
    let c0 := clock_pos w in
    let active1 := powerup_active s || picked in
    let timer1 := if picked then clock env c0 else powerup_timer s in
    let c1 := if picked then S c0 else c0 in
    let expired :=
      active1 && elapsed_over (clock env c1) timer1 POWERUP_DURATION in
    let c2 := if active1 then S c1 else c1 in
    let due :=
      elapsed_over (clock env c2) (last_powerup_spawn s)
        POWERUP_SPAWN_INTERVAL &&
      (picked || match powerup_pos s with None => true | Some _ => false end)
    in
    powerup_active s' = active1 && negb expired /\
    powerup_timer s' = timer1 /\
    speed s' = (if expired then SNAKE_SPEED_NORMAL
                else if picked then SNAKE_SPEED_BOOST else speed s) /\
    (due = false ->
       powerup_pos s' = (if picked then None else powerup_pos s) /\
       last_powerup_spawn s' = last_powerup_spawn s) /\
    (due = true ->
       exists p, powerup_pos s' = Some p /\
                 cell_in p (snake_body s') = false /\ in_grid p).
Proof.
  intros H. apply update_stages in H.
  destruct H as (s1 & w1 & s2 & w2 & s3 & w3 & s4 & w4
                 & H1 & H2 & H3 & H4 & H5).
  apply eat_or_shrink_fields in H1.
  destruct H1 as (h & t & Hbody & Hb1 & Hp1 & Hsp1 & Ha1 & Ht1 & Hl1 & Hc1).
  exists h, t. split; [exact Hbody|]. cbv zeta.
  destruct (post_move_body_head s h t) as (rest & Hhead & _).
  rewrite Hhead in Hb1.
  destruct (take_powerup_fun _ _ _ _ _ _ _ Hb1 H2) as [Hs2 Hw2].
  assert (Hpick : picks_up s1 (moved_head (direction s) h)
                  = picks_up s (moved_head (direction s) h))
    by (unfold picks_up; rewrite Hp1; reflexivity).
  rewrite Hpick in Hs2, Hw2. clear Hpick H2.
  destruct (expire_boost_fun _ _ _ _ _ H3) as [Hs3 Hw3]. clear H3.
  set (picked := picks_up s (moved_head (direction s) h)) in *.
  assert (F2 : powerup_active s2 = powerup_active s || picked /\
               powerup_timer s2
                 = (if picked then clock env (clock_pos w)
                    else powerup_timer s) /\
               speed s2 = (if picked then SNAKE_SPEED_BOOST else speed s) /\
               powerup_pos s2 = (if picked then None else powerup_pos s) /\
               last_powerup_spawn s2 = last_powerup_spawn s /\
               snake_body s2 = moved_head (direction s) h :: rest /\
               clock_pos w2
                 = (if picked then S (clock_pos w) else clock_pos w)).
  { subst s2 w2. destruct picked; cbn; rewrite ?Hc1, ?orb_true_r,
      ?orb_false_r; split_ands; congruence. }
  destruct F2 as (A2 & T2 & S2 & P2 & L2 & B2 & C2).
  rewrite A2, T2, C2 in Hs3. rewrite A2 in Hw3. clear Hs2 Hw2.
  set (active1 := powerup_active s || picked) in *.
  set (timer1 := if picked then clock env (clock_pos w)
                 else powerup_timer s) in *.
  set (c1 := if picked then S (clock_pos w) else clock_pos w) in *.
  set (expired :=
         active1 && elapsed_over (clock env c1) timer1 POWERUP_DURATION) in *.
  assert (F3 : powerup_active s3 = active1 && negb expired /\
               powerup_timer s3 = timer1 /\
               speed s3 = (if expired then SNAKE_SPEED_NORMAL
                           else if picked then SNAKE_SPEED_BOOST
                           else speed s) /\
               powerup_pos s3 = (if picked then None else powerup_pos s) /\
               last_powerup_spawn s3 = last_powerup_spawn s /\
               snake_body s3 = moved_head (direction s) h :: rest /\
               clock_pos w3 = (if active1 then S c1 else c1)).
  { subst s3 w3. unfold expired.
    destruct active1, (elapsed_over (clock env c1) timer1 POWERUP_DURATION);
      cbn; fold c1; split_ands; congruence. }
  destruct F3 as (A3 & T3 & S3 & P3 & L3 & B3 & C3). clear Hs3 Hw3.
  assert (Hs' : snake_body s' = snake_body s4 /\
                powerup_pos s' = powerup_pos s4 /\
                speed s' = speed s4 /\
                powerup_active s' = powerup_active s4 /\
                powerup_timer s' = powerup_timer s4 /\
                last_powerup_spawn s' = last_powerup_spawn s4).
  { apply settle_collision_cases in H5.
    destruct H5 as [[-> _] | (-> & _)]; split_ands; reflexivity. }
  destruct Hs' as (Sb & Sp & Ss & Sa & St & Sl).
  rewrite Sb, Sp, Ss, Sa, St, Sl. clear Sb Sp Ss Sa St Sl H5.
  apply spawn_powerup_cases in H4. rewrite C3, L3, P3 in H4.
  set (c2 := if active1 then S c1 else c1) in *.
  assert (Hnone : match (if picked then None else powerup_pos s) with
                  | None => true
                  | Some _ => false
                  end
                  = picked || match powerup_pos s with
                              | None => true
                              | Some _ => false
                              end)
    by (destruct picked; reflexivity).
  destruct H4 as [(-> & _ & Hdue) | (p & w5 & Hp & Hdue & Hcr & -> & _)].
  - split_ands; try assumption.
    + intros _. split; assumption.
    + intros Hd. exfalso. rewrite <- Hnone in Hd.
      destruct Hdue as [Hdue | (q & Hq)]; rewrite ?Hdue, ?Hq in Hd.
      * discriminate.
      * rewrite andb_false_r in Hd. discriminate.
  - cbn. split_ands; try assumption.
    + intros Hd. exfalso. rewrite <- Hnone, Hdue, Hp in Hd. discriminate.
    + intros _. exists p. split; [reflexivity|].
      rewrite (create_powerup_is_create_food fuel) in Hcr.
      apply create_food_Done in Hcr.
      destruct Hcr as (k & _ & Hc & _ & Hfree & _).
      split; [exact Hfree | rewrite Hc; apply draw_in_grid].
Qed.

(** ** Input handling *)

(** Events touch nothing but the pause flag and the stored direction. *)
Lemma keydown_frame key s :
  exists p d, keydown key s = set_paused p (set_direction d s).
Proof.
  destruct s as [body food pow dir sc hs pa sp act timer spawn].
  destruct key, pa, dir; eexists; eexists; unfold set_paused, set_direction;
    simpl; reflexivity.
Qed.

Lemma process_events_frame events : forall s s1,
  process_events events s = Some s1 ->
  exists p d, s1 = set_paused p (set_direction d s).
Proof.
  induction events as [|e rest IH]; intros s s1 H; simpl in H.
  - injection H as <-. exists (paused s), (direction s).
    destruct s; reflexivity.
  - destruct e as [|key|].
    + discriminate.
    + apply IH in H. destruct H as (p & d & ->).
      destruct (keydown_frame key s) as (p0 & d0 & ->).
      exists p, d. reflexivity.
    + apply IH in H. exact H.
Qed.

(** ** Collision *)

(** C1. A tick ends in game over exactly when the new head is off the grid
    or equals a segment of the body as it stands after the move, the head
    itself apart.  In particular a snake that does not grow and steps onto
    the cell its tail has just left keeps running: the tail is gone before
    the test.  The tick does produce a result whenever the snake is not
    empty, the disk is writable and the random source is fair. *)
Theorem game_over_iff_head_collides fuel s env w :
  (forall s' st w',
     update fuel s env w = Done (s', st) w' ->
     exists h t, snake_body s = h :: t /\
       let nh := moved_head (direction s) h in
       exists rest, snake_body s' = nh :: rest /\
         (st = GameOver <-> out_of_bounds nh \/ In nh rest) /\
         (nh <> food_pos s -> NoDup (h :: t) -> nh = last (h :: t) h ->
          in_grid nh -> st = Running)) /\
  (forall h t,
     snake_body s = h :: t -> disk env = Writable ->
     fair env fuel (moved_head (direction s) h :: h :: t) ->
     exists s' st w', update fuel s env w = Done (s', st) w').
Proof.
  split; [intros s' st w' Hrun | apply update_returns].
  apply update_Done in Hrun.
  destruct Hrun as (h & t & Hbody & Hpost & Hst & _). cbv zeta in *.
  exists h, t. split; [exact Hbody|].
  destruct (post_move_body_head s h t) as (rest & Hhead & Hrest).
  rewrite Hhead in *. simpl tl in Hst.
  exists rest. split; [exact Hpost|].
  assert (Hiff : st = GameOver <->
                 out_of_bounds (moved_head (direction s) h) \/
                 In (moved_head (direction s) h) rest).
  { rewrite Hst, orb_true_iff, off_grid_iff, cell_in_In. reflexivity. }
  split; [exact Hiff|].
  intros Hnofood Hnodup Htail Hin.
  destruct st; [reflexivity|]. exfalso.
  destruct (proj1 Hiff eq_refl) as [Hout | Hself].
  - apply out_of_bounds_not_in_grid in Hout. exact (Hout Hin).
  - destruct (cell_eqb (moved_head (direction s) h) (food_pos s)) eqn:Hfood.
    + apply cell_eqb_eq in Hfood. exact (Hnofood Hfood).
    + subst rest. rewrite Htail in Hself.
      exact (last_not_in_removelast (h :: t) h Hnodup Hself).
Qed.

Lemma game_over_iff_head_collides_witness :
  update 1 curled quiet_env fresh_world
    = Done (uncurled, Running) (mkWorld 0 1 Missing) /\
  exists h t, snake_body curled = h :: t /\
    let nh := moved_head (direction curled) h in
    exists rest, snake_body uncurled = nh :: rest /\
      (Running = GameOver <-> out_of_bounds nh \/ In nh rest) /\
      (nh <> food_pos curled -> NoDup (h :: t) -> nh = last (h :: t) h ->
       in_grid nh -> Running = Running).
Proof.
  split; [reflexivity|].
  exact (proj1 (game_over_iff_head_collides 1 curled quiet_env fresh_world)
           uncurled Running (mkWorld 0 1 Missing) eq_refl).
Defined.

(** ** Growth and score *)

(** C3. When the new head lands on the food the body is one cell longer and
    the score one higher after the tick, and the food has moved to a cell off
    the snake; otherwise length, score and food are what they were.  The
    tick does produce a result whenever the snake is not empty, the disk is
    writable and the random source is fair. *)
Theorem eating_grows_by_one fuel s env w :
  (forall s' st w',
     update fuel s env w = Done (s', st) w' ->
     exists h t, snake_body s = h :: t /\
       let nh := moved_head (direction s) h in
       (nh = food_pos s ->
          List.length (snake_body s') = S (List.length (snake_body s)) /\
          score s' = score s + 1 /\
          food_pos s' <> food_pos s /\ ~ In (food_pos s') (snake_body s')) /\
       (nh <> food_pos s ->
          List.length (snake_body s') = List.length (snake_body s) /\
          score s' = score s /\
          food_pos s' = food_pos s)) /\
  (forall h t,
     snake_body s = h :: t -> disk env = Writable ->
     fair env fuel (moved_head (direction s) h :: h :: t) ->
     exists s' st w', update fuel s env w = Done (s', st) w').
Proof.
  split; [intros s' st w' Hrun | apply update_returns].
  apply update_Done in Hrun.
  destruct Hrun as (h & t & Hbody & Hpost & _ & Hscore & Heat & Hkeep & _).
  cbv zeta in *. exists h, t. split; [exact Hbody|].
  unfold post_move_body in *. rewrite Hbody.
  destruct (cell_eqb (moved_head (direction s) h) (food_pos s)) eqn:Hfood.
  - apply cell_eqb_eq in Hfood. split; [intros _ | intros Hne; contradiction].
    destruct (Heat eq_refl) as (Hmoved & Hfree & _).
    rewrite Hpost. split_ands.
    + reflexivity.
    + exact Hscore.
    + exact Hmoved.
    + apply cell_in_false. exact Hfree.
  - split.
    + intros Heq. apply cell_eqb_eq in Heq. congruence.
    + intros _. rewrite Hpost. split_ands.
      * rewrite removelast_cons2. cbn [List.length].
        rewrite length_removelast_cons. reflexivity.
      * exact Hscore.
      * exact (Hkeep eq_refl).
Qed.

Lemma eating_grows_by_one_witness :
  update 1 hungry quiet_env fresh_world
    = Done (fed, Running) (mkWorld 2 1 Missing) /\
  List.length (snake_body fed) = S (List.length (snake_body hungry)) /\
  score fed = score hungry + 1.
Proof.
  split; [reflexivity|].
  destruct (proj1 (eating_grows_by_one 1 hungry quiet_env fresh_world)
              fed Running (mkWorld 2 1 Missing) eq_refl)
    as (h & t & Hbody & Heat & _).
  injection Hbody as <- <-.
  destruct (Heat eq_refl) as (Hlen & Hscore & _).
  split; [exact Hlen | exact Hscore].
Defined.

(** ** Placement: what it returns and when it returns *)

Lemma in_range (z : Z) (n : nat) : 0 <= z < Z.of_nat n -> In z (range n).
Proof.
  intros Hz. unfold range. apply in_map_iff. exists (Z.to_nat z). split.
  - lia.
  - apply in_seq. lia.
Qed.

Lemma all_cells_cover c : in_grid c -> cell_in c all_cells = true.
Proof.
  destruct c as [x y]. intros [Hx Hy]. cbn [fst snd] in Hx, Hy.
  apply cell_in_In. unfold all_cells. apply in_flat_map.
  exists x. split.
  - apply in_range. change GRID_WIDTH with 40 in *. lia.
  - apply in_map_iff. exists y. split; [reflexivity|].
    apply in_range. change GRID_HEIGHT with 30 in *. lia.
Qed.

Lemma create_food_never_raises fuel body env : forall w e w',
  create_food fuel body env w <> Uncaught e w'.
Proof.
  induction fuel as [|fuel IH]; intros w e w'.
  - discriminate.
  - rewrite create_food_round. destruct (negb _).
    + discriminate.
    + apply IH.
Qed.

(** C7. Every placement returns a cell of the grid that is not a segment of
    the snake body it was given, and it does return one as soon as a round
    within its fuel draws a free cell.  So it is at the three call sites.
    The first food of a session lies off the one-segment snake, and the
    session starts under a fair random source.  When the new head lands on
    the food, the body after the tick is the old body with the new head in
    front, and the new food lies off that grown body, new head included;
    when it does not, the food stays.  A power-up present after the tick is
    the old one, not under the new head, or lies off the body after the
    tick; and when none was there and one is due, one is placed off that
    body.  The tick itself returns on a writable disk under a fair source. *)
Theorem placement_avoids_snake fuel env w :
  (forall body c w',
     create_food fuel body env w = Done c w' -> in_grid c /\ ~ In c body) /\
  (forall body c w',
     create_powerup fuel body env w = Done c w' ->
     in_grid c /\ ~ In c body) /\
  (forall body,
     (exists k, (k < fuel)%nat /\
        cell_in (draw env (rng_pos w + 2 * k)) body = false) ->
     (exists c w', create_food fuel body env w = Done c w') /\
     (exists c w', create_powerup fuel body env w = Done c w')) /\
  (forall s w',
     new_session fuel env w = Done s w' ->
     snake_body s = create_snake /\ ~ In (food_pos s) create_snake) /\
  (fair env fuel create_snake ->
   exists s w', new_session fuel env w = Done s w') /\
  (forall s s' st w',
     update fuel s env w = Done (s', st) w' ->
     exists h t, snake_body s = h :: t /\
       let nh := moved_head (direction s) h in
       (nh = food_pos s ->
          snake_body s' = nh :: h :: t /\
          ~ In (food_pos s') (nh :: h :: t)) /\
       (nh <> food_pos s -> food_pos s' = food_pos s) /\
       (forall p, powerup_pos s' = Some p ->
          (powerup_pos s = Some p /\ nh <> p) \/ ~ In p (snake_body s')) /\
       (powerup_pos s = None ->
        elapsed_over
          (clock env (clock_pos w + if powerup_active s then 1 else 0))
          (last_powerup_spawn s) POWERUP_SPAWN_INTERVAL = true ->
        exists p, powerup_pos s' = Some p /\ in_grid p /\
                  ~ In p (snake_body s'))) /\
  (forall s h t,
     snake_body s = h :: t -> disk env = Writable ->
     fair env fuel (moved_head (direction s) h :: h :: t) ->
     exists s' st w', update fuel s env w = Done (s', st) w').
Proof.
  assert (Hfood : forall body w0 c w',
            create_food fuel body env w0 = Done c w' ->
            in_grid c /\ ~ In c body).
  { intros body w0 c w' H. apply create_food_Done in H.
    destruct H as (k & _ & Hc & _ & Hfree & _). split.
    - rewrite Hc. apply draw_in_grid.
    - apply cell_in_false. exact Hfree. }
  split_ands.
  - intros body. apply Hfood.
  - intros body c w' H. rewrite (create_powerup_is_create_food fuel body) in H.
    exact (Hfood _ _ _ _ H).
  - intros body Hfree. rewrite (create_powerup_is_create_food fuel body).
    split; apply create_food_returns; exact Hfree.
  - intros s w' H. unfold new_session in H.
    split_bind H. split_bind H. split_bind H.
    apply ret_Done in H. destruct H as [<- _].
    cbn [food_pos snake_body]. split; [reflexivity|].
    exact (proj2 (Hfood _ _ _ _ Hrun0)).
  - intros Hfair. unfold new_session.
    rewrite (bind_step _ _ _ _ _ _ (load_high_score_run env w)).
    destruct (create_food_returns fuel create_snake env w (Hfair (rng_pos w)))
      as (c & w1 & Hc).
    rewrite (bind_step _ _ _ _ _ _ Hc).
    rewrite (bind_step _ _ _ _ _ _ (time_time_run env w1)).
    eexists. eexists. reflexivity.
  - intros s s' st w' H.
    pose proof (update_boost_Done _ _ _ _ _ _ _ H) as Hboost.
    apply update_Done in H.
    destruct H as (h & t & Hbody & Hpost & _ & _ & Heat & Hkeep & _).
    destruct Hboost as (h0 & t0 & Hbody0 & _ & _ & _ & Hstay & Hnew).
    rewrite Hbody in Hbody0. injection Hbody0 as <- <-.
    exists h, t. split; [exact Hbody|]. cbv zeta in *.
    unfold post_move_body in Hpost. split_ands.
    + intros Heq. rewrite <- Heq, cell_eqb_refl in *.
      destruct (Heat eq_refl) as (_ & Hfree & _).
      split; [exact Hpost|].
      apply cell_in_false. unfold post_move_body in Hfree.
      rewrite <- Heq, cell_eqb_refl in Hfree. exact Hfree.
    + intros Hne. apply Hkeep.
      destruct (cell_eqb (moved_head (direction s) h) (food_pos s)) eqn:Hf;
        [|reflexivity].
      apply cell_eqb_eq in Hf. contradiction.
    + intros p Hp.
      match type of Hstay with (?d = false -> _) => destruct d end.
      * right. destruct (Hnew eq_refl) as (q & Hq & Hfree & _).
        assert (q = p) by congruence. subst q.
        apply cell_in_false. exact Hfree.
      * left. destruct (Hstay eq_refl) as [Hsame _]. rewrite Hsame in Hp.
        unfold picks_up in Hp.
        destruct (powerup_pos s) as [q|]; [|discriminate].
        destruct (cell_eqb (moved_head (direction s) h) q) eqn:Hhit;
          [discriminate|].
        injection Hp as ->. split; [reflexivity|].
        intros Heq. rewrite Heq, cell_eqb_refl in Hhit. discriminate.
    + intros Hnone Hdue. unfold picks_up in Hnew. rewrite Hnone in Hnew.
      rewrite orb_false_r, orb_true_r, andb_true_r in Hnew.
      replace (clock_pos w + if powerup_active s then 1 else 0)%nat
        with (if powerup_active s then S (clock_pos w) else clock_pos w)
        in Hdue by (destruct (powerup_active s); lia).
      destruct (Hnew Hdue) as (p & Hp & Hfree & Hgrid).
      exists p. split_ands; [exact Hp | exact Hgrid |].
      apply cell_in_false. exact Hfree.
  - intros s. apply update_returns.
Qed.

Lemma placement_avoids_snake_witness :
  update 1 hungry quiet_env fresh_world
    = Done (fed, Running) (mkWorld 2 1 Missing) /\
  snake_body fed = (11, 10) :: snake_body hungry /\
  ~ In (food_pos fed) ((11, 10) :: snake_body hungry).
Proof.
  split; [reflexivity|].
  destruct (proj1 (proj2 (proj2 (proj2 (proj2 (proj2
              (placement_avoids_snake 1 quiet_env fresh_world))))))
              hungry fed Running (mkWorld 2 1 Missing) eq_refl)
    as (h & t & Hbody & Hgrow & _).
  injection Hbody as <- <-. exact (Hgrow eq_refl).
Defined.

(** C2, as the code has it.  Placement returns exactly when one of the
    rounds it is given draws a free cell, and it never raises.  Nothing
    detects a full grid: when the body covers every cell no amount of fuel
    yields a result. *)
Theorem placement_returns_iff_free_draw env w body :
  (forall fuel,
     ((exists c w', create_food fuel body env w = Done c w') <->
      (exists k, (k < fuel)%nat /\
         cell_in (draw env (rng_pos w + 2 * k)) body = false)) /\
     ((exists c w', create_powerup fuel body env w = Done c w') <->
      (exists k, (k < fuel)%nat /\
         cell_in (draw env (rng_pos w + 2 * k)) body = false))) /\
  (forall fuel e w',
     create_food fuel body env w <> Uncaught e w' /\
     create_powerup fuel body env w <> Uncaught e w') /\
  ((forall c, in_grid c -> cell_in c body = true) ->
   forall fuel,
     create_food fuel body env w = OutOfFuel /\
     create_powerup fuel body env w = OutOfFuel).
Proof.
  assert (Hiff : forall fuel,
            (exists c w', create_food fuel body env w = Done c w') <->
            (exists k, (k < fuel)%nat /\
               cell_in (draw env (rng_pos w + 2 * k)) body = false)).
  { intros fuel. split.
    - intros (c & w' & H). apply create_food_Done in H.
      destruct H as (k & Hk & Hc & _ & Hfree & _).
      exists k. rewrite <- Hc. split; assumption.
    - apply create_food_returns. }
  split_ands.
  - intros fuel. rewrite (create_powerup_is_create_food fuel body).
    split; apply Hiff.
  - intros fuel e w'. rewrite (create_powerup_is_create_food fuel body).
    split; apply create_food_never_raises.
  - intros Hfull fuel. rewrite (create_powerup_is_create_food fuel body).
    split; apply create_food_full; exact Hfull.
Qed.

Lemma placement_returns_iff_free_draw_witness :
  (exists c w', create_food 1 [(10, 10)] quiet_env fresh_world = Done c w') /\
  create_powerup 5 all_cells quiet_env fresh_world = OutOfFuel.
Proof.
  split.
  - apply (proj1 (proj1 (placement_returns_iff_free_draw
                           quiet_env fresh_world [(10, 10)]) 1%nat)).
    exists 0%nat. split; [exact (Nat.lt_0_succ 0) | reflexivity].
  - exact (proj2 (proj2 (proj2 (placement_returns_iff_free_draw
                                  quiet_env fresh_world all_cells))
                    all_cells_cover 5%nat)).
Defined.

(** The claim as the specification words it fails on a full board: the loop
    yields neither a cell nor an error, however long it runs. *)
Lemma placement_never_returns_on_full_grid :
  ~ (exists fuel,
       create_food fuel all_cells quiet_env fresh_world <> OutOfFuel).
Proof.
  intros (fuel & H). apply H.
  apply create_food_full. exact all_cells_cover.
Qed.

(** ** Numbers as text *)

Lemma digit_val_range c d :
  digit_val c = Some d -> (48 <= c <= 57)%N /\ 0 <= d.
Proof.
  unfold digit_val.
  destruct ((48 <=? c)%N && (c <=? 57)%N) eqn:Hrange; [|discriminate].
  intros H. injection H as <-.
  apply andb_true_iff in Hrange. destruct Hrange as [Hlo Hhi].
  apply N.leb_le in Hlo. apply N.leb_le in Hhi. lia.
Qed.

Lemma digit_facts c d :
  digit_val c = Some d ->
  (c <? 128)%N = true /\ is_space c = false /\
  (c =? 45)%N = false /\ (c =? 43)%N = false.
Proof.
  intros H. apply digit_val_range in H. destruct H as [Hc _].
  unfold is_space. split_ands.
  - apply N.ltb_lt. lia.
  - rewrite orb_false_iff, andb_false_iff, !N.leb_gt, N.eqb_neq. lia.
  - apply N.eqb_neq. lia.
  - apply N.eqb_neq. lia.
Qed.















Lemma chars_of_digits d :
  Forall (fun c => exists v, digit_val c = Some v) (chars_of d).
Proof.
  unfold chars_of, ascii_text.
  induction d; simpl; constructor; try assumption; eexists; reflexivity.
Qed.

Lemma lstrip_id s :
  Forall (fun c => is_space c = false) s -> lstrip s = s.
Proof.
  intros H. destruct H as [|c s Hc _]; [reflexivity|].
  simpl. rewrite Hc. reflexivity.
Qed.

Lemma strip_id s :
  Forall (fun c => is_space c = false) s -> strip s = s.
Proof.
  intros H. unfold strip. rewrite (lstrip_id s H).
  rewrite (lstrip_id (rev s)) by (apply Forall_rev; exact H).
  apply rev_involutive.
Qed.

Lemma ascii_form_ascii env s :
  forallb (fun ch => (ch <? 128)%N) s = true -> ascii_form env s = s.
Proof. unfold ascii_form. intros ->. reflexivity. Qed.

Lemma digits_plain s :
  Forall (fun c => exists v, digit_val c = Some v) s ->
  forallb (fun ch => (ch <? 128)%N) s = true /\
  Forall (fun c => is_space c = false) s /\
  count_digits s = List.length s.
Proof.
  intros H. split_ands.
  - apply forallb_forall. intros c Hc.
    rewrite Forall_forall in H. destruct (H c Hc) as (v & Hv).
    exact (proj1 (digit_facts c v Hv)).
  - eapply Forall_impl; [|exact H]. intros c (v & Hv).
    exact (proj1 (proj2 (digit_facts c v Hv))).
  - unfold count_digits. induction H as [|c l (v & Hv) _ IH]; [reflexivity|].
    simpl. rewrite Hv. simpl. rewrite IH. reflexivity.
Qed.

Lemma parse_digits_chars_of d : forall acc b,
  (d = Decimal.Nil -> b = true) ->
  parse_digits acc b (chars_of d) = Some (uint_acc d acc).
Proof.
  unfold chars_of, ascii_text.
  induction d as [|d IH|d IH|d IH|d IH|d IH|d IH|d IH|d IH|d IH|d IH];
    intros acc b Hb.
  1: simpl; rewrite (Hb eq_refl); reflexivity.
  all: cbn [NilEmpty.string_of_uint list_ascii_of_string map parse_digits
            uint_acc];
    match goal with
    | |- context [digit_val ?c] =>
        let v := eval vm_compute in (digit_val c) in
        change (digit_val c) with v
    end;
    cbv iota; rewrite (IH _ true (fun _ => eq_refl)); reflexivity.
Qed.

Lemma uint_acc_pos d : forall p,
  uint_acc d (Zpos p) = Zpos (Pos.of_uint_acc d p).
Proof.
  induction d as [|d IH|d IH|d IH|d IH|d IH|d IH|d IH|d IH|d IH|d IH];
    intros p; cbn [uint_acc Pos.of_uint_acc]; [reflexivity|..];
    rewrite <- IH; f_equal; lia.
Qed.

Lemma uint_acc_of_uint d : uint_acc d 0 = Z.of_uint d.
Proof.
  unfold Z.of_uint.
  induction d as [|d IH|d IH|d IH|d IH|d IH|d IH|d IH|d IH|d IH|d IH];
    cbn [uint_acc Pos.of_uint]; [reflexivity | exact IH |..];
    match goal with
    | |- uint_acc d ?z = _ =>
        let v := eval vm_compute in z in change z with v
    end;
    rewrite uint_acc_pos; reflexivity.
Qed.

(** Reading a numeral, bare or after a minus sign. *)
Lemma py_int_chars_of env d :
  d <> Decimal.Nil ->
  over_limit env (List.length (chars_of d)) = false ->
  py_int env (chars_of d) = Some (Z.of_uint d) /\
  py_int env (45%N :: chars_of d) = Some (- Z.of_uint d).
Proof.
  intros Hd Hlimit.
  pose proof (chars_of_digits d) as Hdigits.
  destruct (digits_plain _ Hdigits) as (Hascii & Hspace & Hcount).
  assert (Hlit : literal env (chars_of d) = Some (Z.of_uint d)).
  { unfold literal. rewrite Hcount, Hlimit.
    rewrite (parse_digits_chars_of d 0 false) by (intros; contradiction).
    rewrite uint_acc_of_uint. reflexivity. }
  split.
  - unfold py_int.
    rewrite (ascii_form_ascii env _ Hascii), (strip_id _ Hspace).
    destruct (chars_of d) as [|c r] eqn:Hchars.
    { destruct d; try contradiction; discriminate Hchars. }
    inversion Hdigits as [|x l (v & Hv) Hrest]; subst.
    destruct (digit_facts c v Hv) as (_ & _ & -> & ->). exact Hlit.
  - unfold py_int.
    rewrite (ascii_form_ascii env (45%N :: chars_of d))
      by (simpl; exact Hascii).
    rewrite (strip_id (45%N :: chars_of d))
      by (constructor; [reflexivity | exact Hspace]).
    simpl. rewrite Hlit. reflexivity.
Qed.


(** What [str] writes, [int] reads back, as long as the digits stay within
    the interpreter's limit. *)
Lemma py_int_py_str env z :
  within_limit env z -> py_int env (py_str z) = Some z.
Proof.
  unfold within_limit, py_str. rewrite <- (DecimalZ.of_to z) at 3.
  destruct (Z.to_int z) as [d|d]; cbn [NilZero.string_of_int Z.of_int].
  - intros Hlimit.
    assert (Hd : exists d', d' <> Decimal.Nil /\
                   ascii_text (NilZero.string_of_uint d) = chars_of d' /\
                   Z.of_uint d' = Z.of_uint d).
    { destruct d; try (eexists; split; [|split; reflexivity]; discriminate).
      exists (Decimal.D0 Decimal.Nil).
      split; [discriminate | split; reflexivity]. }
    destruct Hd as (d' & Hne & Htext & Hval).
    rewrite Htext in *. rewrite <- Hval.
    destruct (digits_plain _ (chars_of_digits d')) as (_ & _ & Hc).
    rewrite Hc in Hlimit.
    exact (proj1 (py_int_chars_of env d' Hne Hlimit)).
  - intros Hlimit.
    assert (Hd : exists d', d' <> Decimal.Nil /\
                   ascii_text (String "-" (NilZero.string_of_uint d))
                     = 45%N :: chars_of d' /\
                   Z.of_uint d' = Z.of_uint d).
    { destruct d; try (eexists; split; [|split; reflexivity]; discriminate).
      exists (Decimal.D0 Decimal.Nil).
      split; [discriminate | split; reflexivity]. }
    destruct Hd as (d' & Hne & Htext & Hval).
    rewrite Htext in *. rewrite <- Hval.
    destruct (digits_plain _ (chars_of_digits d')) as (_ & _ & Hc).
    unfold count_digits in Hlimit. simpl filter in Hlimit.
    fold (count_digits (chars_of d')) in Hlimit. rewrite Hc in Hlimit.
    exact (proj2 (py_int_chars_of env d' Hne Hlimit)).
Qed.

(** ** Loading the high score *)




(** ** Saving the high score at game over *)

(** C4, as the code has it.  Nothing catches a failing save: once the stages
    before the game-over test have run, a collision with a score above the
    high score and a disk that refuses the write end the tick, the loop
    iteration and the whole game loop with the I/O error. *)
Theorem save_failure_is_uncaught fuel s env w s4 w4
  (Hadv : advance fuel s env w = Done s4 w4)
  (Hhit : exists h t, snake_body s4 = h :: t /\
                      (off_grid h || cell_in h t) = true)
  (Hbeat : score s4 > high_score s4)
  (Hdisk : disk env <> Writable) :
  exists w',
    update fuel s env w = Uncaught IOError w' /\
    forall events answer s0,
      process_events events s0 = Some s -> paused s = false ->
      frame fuel events answer s0 env w = Uncaught IOError w' /\
      forall rest,
        play fuel ((events, answer) :: rest) s0 env w = Uncaught IOError w' /\
        game_loop_from fuel ((events, answer) :: rest) s0 env w
          = Uncaught IOError w'.
Proof.
  destruct Hhit as (h & t & Hbody & Hhit).
  assert (Hsettle : exists w', settle_collision s4 env w4 = Uncaught IOError w').
  { unfold settle_collision. rewrite Hbody.
    rewrite (bind_step _ _ _ _ _ _ (check_collision_cons h t env w4)).
    rewrite Hhit.
    assert (Hcmp : (score s4 >? high_score s4) = true)
      by (rewrite Z.gtb_ltb; apply Z.ltb_lt; lia).
    rewrite Hcmp. unfold bind, save_high_score.
    destruct (disk env); [contradiction | |]; eexists; reflexivity. }
  destruct Hsettle as (w' & Hsettle). exists w'.
  assert (Hupd : update fuel s env w = Uncaught IOError w').
  { unfold update. rewrite (bind_step _ _ _ _ _ _ Hadv). exact Hsettle. }
  split; [exact Hupd|].
  intros events answer s0 Hev Hpaused.
  assert (Hframe : frame fuel events answer s0 env w = Uncaught IOError w').
  { unfold frame. rewrite Hev, Hpaused. apply bind_Uncaught. exact Hupd. }
  split; [exact Hframe|]. intros rest. split.
  - simpl. apply bind_Uncaught. exact Hframe.
  - simpl. apply bind_Uncaught. exact Hframe.
Qed.

Lemma save_failure_is_uncaught_witness :
  exists w',
    update 1 doomed broken_disk_env fresh_world = Uncaught IOError w'.
Proof.
  destruct (save_failure_is_uncaught 1 doomed broken_disk_env fresh_world
              crashed (mkWorld 0 1 Missing) eq_refl
              (ex_intro _ (40, 10) (ex_intro _ [(39, 10)]
                 (conj eq_refl eq_refl)))
              eq_refl
              (fun H : OpenFails = Writable =>
                 eq_ind OpenFails
                   (fun d => match d with OpenFails => True | _ => False end)
                   I Writable H))
    as (w' & Hupd & _).
  exists w'. exact Hupd.
Defined.

(** The claim as worded fails: the loop iteration in which the save fails
    does not complete, and neither does the game loop around it. *)
Lemma save_failure_crashes_the_loop :
  frame 1 [] ACT_RESTART doomed broken_disk_env fresh_world
    = Uncaught IOError (mkWorld 0 1 Missing) /\
  game_loop_from 1 [([], ACT_RESTART); ([], ACT_RESTART)] doomed
    broken_disk_env fresh_world
    = Uncaught IOError (mkWorld 0 1 Missing).
Proof. split; reflexivity. Qed.

(** ** The high score over a session *)

Lemma frame_high_score fuel events answer s env w n w' :
  frame fuel events answer s env w = Done n w' ->
  high_score s <= high_score_of n (high_score s).
Proof.
  unfold frame. intros H.
  destruct (process_events events s) as [s1|] eqn:Hev.
  - apply process_events_frame in Hev. destruct Hev as (p & d & ->).
    simpl paused in H. destruct p.
    + apply ret_Done in H. destruct H as [<- _]. simpl. lia.
    + split_bind H. destruct a as [s2 st].
      apply update_Done in Hrun.
      destruct Hrun as (h & t & _ & _ & _ & _ & _ & _ & _ & _ & _
                        & Hbeat & Hkeep).
      simpl high_score in Hbeat, Hkeep.
      assert (Hle : high_score s <= high_score s2).
      { destruct st.
        - destruct (Hkeep (or_introl eq_refl)) as [-> _]. lia.
        - destruct (Z_le_gt_dec (score s2) (high_score s)) as [Hs | Hs].
          + destruct (Hkeep (or_intror Hs)) as [-> _]. lia.
          + destruct (Hbeat (conj eq_refl Hs)) as [-> _]. lia. }
      destruct st; apply ret_Done in H; destruct H as [<- _]; exact Hle.
  - apply ret_Done in H. destruct H as [<- _]. simpl. lia.
Qed.

(** C8. When a tick ends in game over with a score above the high score,
    the high score becomes that score and is written to the file; in every
    other tick the high score and the file stay as they are.  Hence the
    high score never decreases while a session is played.  The tick does
    produce a result whenever the snake is not empty, the disk is writable
    and the random source is fair. *)
Theorem high_score_updates_iff_beaten fuel s env w :
  (forall h t,
     snake_body s = h :: t -> disk env = Writable ->
     fair env fuel (moved_head (direction s) h :: h :: t) ->
     exists s' st w', update fuel s env w = Done (s', st) w') /\
  (forall s' st w',
     update fuel s env w = Done (s', st) w' ->
     (st = GameOver /\ score s' > high_score s ->
        high_score s' = score s' /\
        file w' = Content (py_str (score s'))) /\
     (~ (st = GameOver /\ score s' > high_score s) ->
        high_score s' = high_score s /\ file w' = file w)) /\
  (forall inputs n w',
     play fuel inputs s env w = Done n w' ->
     high_score s <= high_score_of n (high_score s)).
Proof.
  split; [apply update_returns|]. split.
  - intros s' st w' H. apply update_Done in H.
    destruct H as (h & t & _ & _ & _ & _ & _ & _ & _ & _ & _ & Hbeat & Hkeep).
    split.
    + intros Hgo. destruct (Hbeat Hgo) as (B1 & B2 & _). split; assumption.
    + intros Hno. apply Hkeep.
      destruct st; [left; reflexivity | right].
      destruct (Z_le_gt_dec (score s') (high_score s)) as [Hs | Hs];
        [exact Hs | exfalso; apply Hno; split; [reflexivity | exact Hs]].
  - intros inputs. revert s w.
    induction inputs as [|[events answer] rest IH]; intros s w n w' H;
      simpl in H.
    + apply ret_Done in H. destruct H as [<- _]. simpl. lia.
    + split_bind H. pose proof (frame_high_score _ _ _ _ _ _ _ _ Hrun) as Hf.
      destruct a as [s1 | s1 a1 |].
      * apply IH in H. simpl in Hf.
        destruct n as [s2 | s2 a2 |]; simpl in *; lia.
      * apply ret_Done in H. destruct H as [<- _]. exact Hf.
      * apply ret_Done in H. destruct H as [<- _]. simpl. lia.
Qed.

Lemma high_score_updates_iff_beaten_witness :
  update 1 doomed quiet_env fresh_world
    = Done (record_set, GameOver) (mkWorld 0 1 (Content (ascii_text "3"))) /\
  high_score record_set = score record_set /\
  file (mkWorld 0 1 (Content (ascii_text "3")))
    = Content (py_str (score record_set)).
Proof.
  split; [reflexivity|].
  refine (proj1 (proj1 (proj2 (high_score_updates_iff_beaten 1 doomed
                                 quiet_env fresh_world))
                   record_set GameOver
                   (mkWorld 0 1 (Content (ascii_text "3"))) eq_refl)
            (conj eq_refl eq_refl)).
Defined.

(** ** Direction commands *)

(** C6. A command for the exact opposite of the stored direction changes
    nothing: the session after the key press is the session before it. *)
Theorem reversal_is_dropped (s : Session) :
  keydown (key_of (opposite (direction s))) s = s /\
  process_events [KEYDOWN (key_of (opposite (direction s)))] s = Some s.
Proof.
  assert (H : keydown (key_of (opposite (direction s))) s = s).
  { destruct s as [body food pow dir sc hs pa sp act timer spawn].
    destruct dir, pa; reflexivity. }
  split; [exact H|]. simpl. rewrite H. reflexivity.
Qed.

(** C10. Within one batch every command is checked against the direction
    left by the commands before it.  With RIGHT stored, LEFT alone is
    refused, yet UP followed by LEFT leaves LEFT stored; after a tick that
    moved the head to the right, that batch therefore stores the opposite of
    the move just made, and the next step would lead back onto the cell the
    head came from. *)
Theorem batch_checks_against_updated_direction :
  (forall key rest s,
     process_events (KEYDOWN key :: rest) s
       = process_events rest (keydown key s)) /\
  (forall s, paused s = false -> direction s = RIGHT ->
     process_events [KEYDOWN K_LEFT] s = Some s /\
     process_events [KEYDOWN K_UP; KEYDOWN K_LEFT] s
       = Some (set_direction LEFT s)) /\
  (forall fuel s0 env w s st w',
     direction s0 = RIGHT -> paused s0 = false ->
     update fuel s0 env w = Done (s, st) w' ->
     exists h t rest s',
       snake_body s0 = h :: t /\
       snake_body s = moved_head RIGHT h :: rest /\
       process_events [KEYDOWN K_UP; KEYDOWN K_LEFT] s = Some s' /\
       direction s' = opposite RIGHT /\
       moved_head (direction s') (moved_head RIGHT h) = h).
Proof.
  assert (Hbatch : forall s, paused s = false -> direction s = RIGHT ->
            process_events [KEYDOWN K_LEFT] s = Some s /\
            process_events [KEYDOWN K_UP; KEYDOWN K_LEFT] s
              = Some (set_direction LEFT s)).
  { intros s Hp Hd.
    destruct s as [body food pow dir sc hs pa sp act timer spawn].
    simpl in Hp, Hd. subst pa dir. split; reflexivity. }
  split_ands.
  - reflexivity.
  - exact Hbatch.
  - intros fuel s0 env w s st w' Hd Hp Hrun.
    apply update_Done in Hrun.
    destruct Hrun as (h & t & Hbody & Hpost & _ & _ & _ & _ & Hdir & Hpa & _).
    cbv zeta in Hpost.
    destruct (post_move_body_head s0 h t) as (rest & Hhead & _).
    rewrite Hhead, Hd in Hpost.
    exists h, t, rest, (set_direction LEFT s). split_ands.
    + exact Hbody.
    + exact Hpost.
    + apply Hbatch; congruence.
    + reflexivity.
    + destruct h as [x y]. simpl. f_equal; lia.
Qed.

Lemma batch_checks_against_updated_direction_witness :
  process_events [KEYDOWN K_LEFT] hungry = Some hungry /\
  process_events [KEYDOWN K_UP; KEYDOWN K_LEFT] hungry
    = Some (set_direction LEFT hungry).
Proof.
  exact (proj1 (proj2 batch_checks_against_updated_direction)
           hungry eq_refl eq_refl).
Defined.

(** ** Pause *)

Lemma process_events_calm events : forall s,
  paused s = true -> forallb calm events = true ->
  process_events events s = Some s.
Proof.
  induction events as [|e rest IH]; intros s Hp Hcalm; simpl in *.
  - reflexivity.
  - apply andb_true_iff in Hcalm. destruct Hcalm as [He Hrest].
    destruct e as [|key|]; simpl in He.
    + discriminate.
    + assert (Hkey : keydown key s = s).
      { destruct key; simpl; try discriminate; rewrite Hp; reflexivity. }
      rewrite Hkey. apply IH; assumption.
    + apply IH; assumption.
Qed.

(** C9. The space bar flips the pause flag and nothing else.  While the
    flag is set a loop iteration runs no part of the update: however many
    iterations pass without a space-bar or window-close event, the session
    and the world are exactly what they were; whatever the events, an
    iteration that ends paused leaves snake, food, power-up, score and high
    score alone.  A space-bar press while paused is taken: the same
    iteration goes on as an unpaused one. *)
Theorem pause_freezes_the_session (s : Session) (Hp : paused s = true) :
  (forall s0, keydown K_SPACE s0 = set_paused (negb (paused s0)) s0) /\
  (forall fuel inputs env w,
     Forall (fun i => forallb calm (fst i) = true) inputs ->
     play fuel inputs s env w = Done (Continue s) w) /\
  (forall fuel events answer env w s1,
     process_events events s = Some s1 -> paused s1 = true ->
     frame fuel events answer s env w = Done (Continue s1) w /\
     snake_body s1 = snake_body s /\ food_pos s1 = food_pos s /\
     powerup_pos s1 = powerup_pos s /\ score s1 = score s /\
     high_score s1 = high_score s) /\
  (forall fuel answer env w,
     paused (keydown K_SPACE s) = false /\
     frame fuel [KEYDOWN K_SPACE] answer s env w
       = frame fuel [] answer (set_paused false s) env w).
Proof.
  split_ands.
  - reflexivity.
  - intros fuel inputs env w Hcalm.
    induction Hcalm as [|[events answer] rest Hev _ IH]; simpl.
    + reflexivity.
    + simpl in Hev. unfold bind, frame.
      rewrite (process_events_calm events s Hp Hev), Hp. exact IH.
  - intros fuel events answer env w s1 Hev Hp1.
    unfold frame. rewrite Hev, Hp1.
    apply process_events_frame in Hev. destruct Hev as (p & d & ->).
    split_ands; reflexivity.
  - intros fuel answer env w. split.
    + simpl. rewrite Hp. reflexivity.
    + unfold frame. simpl. rewrite Hp. reflexivity.
Qed.

Lemma pause_freezes_the_session_witness :
  paused napping = true /\
  play 1 [([KEYDOWN K_LEFT], ACT_QUIT); ([], ACT_QUIT);
          ([OtherEvent; KEYDOWN K_DOWN], ACT_QUIT)]
       napping quiet_env fresh_world
    = Done (Continue napping) fresh_world.
Proof.
  split; [reflexivity|].
  apply (proj1 (proj2 (pause_freezes_the_session napping eq_refl))).
  repeat constructor.
Defined.

(** * Further properties of the code *)

(** ** Invariants along the loops *)

Section Invariants.

Variable I : Session -> World -> Prop.
Variables (fuel : nat) (env : Env).

Hypothesis I_keydown : forall key s w, I s w -> I (keydown key s) w.
Hypothesis I_update : forall s w s' w',
  I s w -> update fuel s env w = Done (s', Running) w' -> I s' w'.

Lemma process_events_invariant events : forall s s1 w,
  I s w -> process_events events s = Some s1 -> I s1 w.
Proof.
  induction events as [|e rest IH]; intros s s1 w HI H; simpl in H.
  - injection H as <-. exact HI.
  - destruct e as [|key|].
    + discriminate.
    + apply (IH (keydown key s)); [apply I_keydown; exact HI | exact H].
    + apply (IH s); assumption.
Qed.

Lemma frame_invariant events answer s w s' w' :
  I s w -> frame fuel events answer s env w = Done (Continue s') w' ->
  I s' w'.
Proof.
  unfold frame. intros HI H.
  destruct (process_events events s) as [s1|] eqn:Hev.
  - pose proof (process_events_invariant _ _ _ _ HI Hev) as HI1.
    destruct (paused s1).
    + apply ret_Done in H. destruct H as [H <-]. injection H as <-.
      exact HI1.
    + split_bind H. destruct a as [s2 [|]].
      * apply ret_Done in H. destruct H as [H <-]. injection H as <-.
        exact (I_update _ _ _ _ HI1 Hrun).
      * apply ret_Done in H. destruct H as [H _]. discriminate.
  - apply ret_Done in H. destruct H as [H _]. discriminate.
Qed.

Lemma play_invariant inputs : forall s w s' w',
  I s w -> play fuel inputs s env w = Done (Continue s') w' -> I s' w'.
Proof.
  induction inputs as [|[events answer] rest IH]; intros s w s' w' HI H;
    simpl in H.
  - apply ret_Done in H. destruct H as [H <-]. injection H as <-. exact HI.
  - split_bind H. destruct a as [s1 | s1 a1 |].
    + apply (IH s1 w0); [|exact H].
      exact (frame_invariant _ _ _ _ _ _ HI Hrun).
    + apply ret_Done in H. destruct H as [H _]. discriminate.
    + apply ret_Done in H. destruct H as [H _]. discriminate.
Qed.

Hypothesis I_new_session : forall w s w',
  new_session fuel env w = Done s w' -> I s w'.

Lemma game_loop_from_invariant inputs : forall s w s' w',
  I s w -> game_loop_from fuel inputs s env w = Done (Some s') w' ->
  I s' w'.
Proof.
  induction inputs as [|[events answer] rest IH]; intros s w s' w' HI H;
    simpl in H.
  - apply ret_Done in H. destruct H as [H <-]. injection H as <-. exact HI.
  - split_bind H. destruct a as [s1 | s1 [|] |].
    + apply (IH s1 w0); [|exact H].
      exact (frame_invariant _ _ _ _ _ _ HI Hrun).
    + apply ret_Done in H. destruct H as [H _]. discriminate.
    + split_bind H. apply (IH a w1); [|exact H].
      exact (I_new_session _ _ _ Hrun0).
    + apply ret_Done in H. destruct H as [H _]. discriminate.
Qed.

Lemma game_loop_invariant inputs w s' w' :
  game_loop fuel inputs env w = Done (Some s') w' -> I s' w'.
Proof.
  unfold game_loop. intros H. split_bind H.
  apply (game_loop_from_invariant inputs a w0); [|exact H].
  exact (I_new_session _ _ _ Hrun).
Qed.

End Invariants.

(** ** A fresh session *)

Lemma new_session_Done fuel env w s w' :
  new_session fuel env w = Done s w' ->
  exists food now,
    s = mkSession create_snake food None RIGHT 0 (loaded env w) false
          SNAKE_SPEED_NORMAL false 0%float now /\
    cell_in food create_snake = false /\ in_grid food /\
    file w' = file w.
Proof.
  unfold new_session. intros H.
  rewrite (bind_step _ _ _ _ _ _ (load_high_score_run env w)) in H.
  split_bind H.
  rewrite (bind_step _ _ _ _ _ _ (time_time_run env w0)) in H.
  apply ret_Done in H. destruct H as [<- <-].
  apply create_food_Done in Hrun.
  destruct Hrun as (k & _ & Hc & Hw & Hfree & _).
  exists a, (clock env (clock_pos w0)). split_ands.
  - reflexivity.
  - exact Hfree.
  - rewrite Hc. apply draw_in_grid.
  - rewrite Hw. reflexivity.
Qed.

(** ** The shape of the snake *)

Lemma moved_head_adjacent d h : adjacent (moved_head d h) h.
Proof.
  destruct h as [x y], d; unfold adjacent; simpl; lia.
Qed.

Lemma moved_head_differs d h : moved_head d h <> h.
Proof.
  intros Heq. pose proof (moved_head_adjacent d h) as Hadj.
  rewrite Heq in Hadj. unfold adjacent in Hadj. lia.
Qed.

Lemma off_grid_false c : off_grid c = false <-> in_grid c.
Proof.
  unfold off_grid, in_grid.
  rewrite !orb_false_iff, !Z.ltb_ge, !Z.geb_leb, !Z.leb_gt. lia.
Qed.

Lemma chain_removelast body : chain body -> chain (removelast body).
Proof.
  induction body as [|a body IH]; [trivial|].
  destruct body as [|b body]; [trivial|].
  intros [Hab Hrest]. rewrite removelast_cons2.
  destruct body as [|c body]; [exact I|].
  rewrite removelast_cons2. split; [exact Hab|].
  rewrite <- removelast_cons2. exact (IH Hrest).
Qed.

Lemma chain_post_move_body s h t :
  chain (h :: t) -> chain (post_move_body s h t).
Proof.
  intros Hchain. unfold post_move_body.
  assert (Hgrown : chain (moved_head (direction s) h :: h :: t))
    by (split; [apply moved_head_adjacent | exact Hchain]).
  destruct (cell_eqb _ _); [exact Hgrown|].
  apply chain_removelast. exact Hgrown.
Qed.

Lemma NoDup_removelast {A} (l : list A) : NoDup l -> NoDup (removelast l).
Proof.
  induction l as [|a l IH]; [trivial|].
  destruct l as [|b l]; [intros _; constructor|].
  rewrite removelast_cons2. intros Hnd.
  inversion Hnd as [|x xs Hnotin Hnd']; subst.
  constructor.
  - intros Hin. apply Hnotin. apply in_removelast. exact Hin.
  - exact (IH Hnd').
Qed.

Lemma Forall_removelast {A} (P : A -> Prop) (l : list A) :
  Forall P l -> Forall P (removelast l).
Proof.
  intros H. apply Forall_forall. intros x Hx.
  rewrite Forall_forall in H. apply H. apply in_removelast. exact Hx.
Qed.

(** X1. [move_snake] fails with an index error on an empty body.  On any
    other body it puts one new cell in front of the unchanged body, a
    neighbour of the old head, so a connected body stays connected; it reads
    neither the clock nor the random source. *)
Theorem move_snake_steps_to_neighbour (d : Direction) env w :
  move_snake [] d env w = Uncaught IndexError w /\
  (forall h t, exists nh,
     move_snake (h :: t) d env w = Done (nh :: h :: t) w /\
     adjacent nh h /\ nh <> h /\
     (chain (h :: t) -> chain (nh :: h :: t))).
Proof.
  split; [reflexivity|]. intros h t. exists (moved_head d h). split_ands.
  - apply move_snake_cons.
  - apply moved_head_adjacent.
  - apply moved_head_differs.
  - intros Hchain. split; [apply moved_head_adjacent | exact Hchain].
Qed.

Lemma move_snake_steps_to_neighbour_witness :
  exists nh,
    move_snake [(10, 10); (9, 10)] UP quiet_env fresh_world
      = Done [nh; (10, 10); (9, 10)] fresh_world /\
    chain [nh; (10, 10); (9, 10)].
Proof.
  destruct (proj2 (move_snake_steps_to_neighbour UP quiet_env fresh_world)
              (10, 10) [(9, 10)])
    as (nh & Hmove & _ & _ & Hchain).
  exists nh. split; [exact Hmove|].
  apply Hchain. repeat split.
Defined.

(** X2. Consecutive segments of the snake are always neighbours: one update
    keeps a connected body connected, whether it grows or not and however
    it ends, and so the body is connected at every point of the game loop. *)
Theorem snake_stays_connected fuel env :
  (forall s w s' st w',
     chain (snake_body s) ->
     update fuel s env w = Done (s', st) w' -> chain (snake_body s')) /\
  (forall inputs w s w',
     game_loop fuel inputs env w = Done (Some s) w' -> chain (snake_body s)).
Proof.
  assert (Hupd : forall s w s' st w',
            chain (snake_body s) ->
            update fuel s env w = Done (s', st) w' -> chain (snake_body s')).
  { intros s w s' st w' Hchain H. apply update_Done in H.
    destruct H as (h & t & Hbody & Hpost & _). cbv zeta in Hpost.
    rewrite Hpost. apply chain_post_move_body. rewrite <- Hbody.
    exact Hchain. }
  split; [exact Hupd|].
  intros inputs w s w' H.
  apply (game_loop_invariant (fun s _ => chain (snake_body s)) fuel env)
    with (inputs := inputs) (w := w) (w' := w'); [ | | | exact H].
  - intros key s0 w0 HI. destruct (keydown_frame key s0) as (p & d & ->).
    exact HI.
  - intros s0 w0 s1 w1 HI Hrun. exact (Hupd _ _ _ _ _ HI Hrun).
  - intros w0 s0 w1 Hnew. apply new_session_Done in Hnew.
    destruct Hnew as (food & now & -> & _). exact I.
Qed.

Lemma snake_stays_connected_witness :
  update 1 curled quiet_env fresh_world
    = Done (uncurled, Running) (mkWorld 0 1 Missing) /\
  chain (snake_body uncurled).
Proof.
  split; [reflexivity|].
  refine (proj1 (snake_stays_connected 1 quiet_env) curled fresh_world
            uncurled Running (mkWorld 0 1 Missing) _ eq_refl).
  repeat split.
Defined.

(** An update that does not end the game leaves the snake on the grid and
    free of repetition. *)
Lemma update_keeps_alive fuel env s w s' w' :
  alive (snake_body s) ->
  update fuel s env w = Done (s', Running) w' -> alive (snake_body s').
Proof.
  intros [Hnd Hgrid] H. apply update_Done in H.
  destruct H as (h & t & Hbody & Hpost & Hst & _). cbv zeta in Hpost, Hst.
  destruct (post_move_body_head s h t) as (rest & Hhead & Hrest).
  rewrite Hhead in Hpost, Hst. simpl tl in Hst. rewrite Hbody in *.
  assert (Hfree : (off_grid (moved_head (direction s) h)
                   || cell_in (moved_head (direction s) h) rest) = false).
  { destruct (off_grid _ || cell_in _ _); [|reflexivity].
    discriminate (proj2 Hst eq_refl). }
  apply orb_false_iff in Hfree. destruct Hfree as [Hin Hself].
  assert (Hrest' : NoDup rest /\ Forall in_grid rest).
  { subst rest. destruct (cell_eqb _ _).
    - split; assumption.
    - split; [apply NoDup_removelast | apply Forall_removelast];
        assumption. }
  rewrite Hpost. split.
  - constructor; [|exact (proj1 Hrest')].
    apply cell_in_false. exact Hself.
  - constructor; [|exact (proj2 Hrest')].
    apply off_grid_false. exact Hin.
Qed.

(** X3. While the game runs the snake lies on the grid and covers no cell
    twice: an update that does not end the game keeps that, a fresh session
    has it, and so it holds at every point of the game loop. *)
Theorem running_snake_is_alive fuel env :
  (forall s w s' w',
     alive (snake_body s) ->
     update fuel s env w = Done (s', Running) w' -> alive (snake_body s')) /\
  (forall inputs w s w',
     game_loop fuel inputs env w = Done (Some s) w' -> alive (snake_body s)).
Proof.
  assert (Hupd : forall s w s' w',
            alive (snake_body s) ->
            update fuel s env w = Done (s', Running) w' ->
            alive (snake_body s'))
    by (intros s w s' w'; apply update_keeps_alive).
  split; [exact Hupd|].
  intros inputs w s w' H.
  apply (game_loop_invariant (fun s _ => alive (snake_body s)) fuel env)
    with (inputs := inputs) (w := w) (w' := w'); [ | | | exact H].
  - intros key s0 w0 HI. destruct (keydown_frame key s0) as (p & d & ->).
    exact HI.
  - intros s0 w0 s1 w1 HI Hrun. exact (Hupd _ _ _ _ HI Hrun).
  - intros w0 s0 w1 Hnew. apply new_session_Done in Hnew.
    destruct Hnew as (food & now & -> & _). simpl. split.
    + constructor; [intros [] | constructor].
    + constructor; [|constructor]. split; simpl; split; reflexivity || easy.
Qed.

Lemma running_snake_is_alive_witness :
  update 1 curled quiet_env fresh_world
    = Done (uncurled, Running) (mkWorld 0 1 Missing) /\
  alive (snake_body uncurled).
Proof.
  split; [reflexivity|].
  refine (proj1 (running_snake_is_alive 1 quiet_env) curled fresh_world
            uncurled (mkWorld 0 1 Missing) _ eq_refl).
  split.
  - repeat constructor; simpl; intuition discriminate.
  - repeat constructor; simpl; discriminate.
Defined.

(** ** Score, walls and short snakes *)

(** Score and body length move together. *)
Lemma update_score_length fuel env s w s' st w' :
  update fuel s env w = Done (s', st) w' ->
  score s' - Z.of_nat (List.length (snake_body s'))
    = score s - Z.of_nat (List.length (snake_body s)).
Proof.
  intros H. apply update_Done in H.
  destruct H as (h & t & Hbody & Hpost & _ & Hscore & _).
  cbv zeta in Hpost, Hscore. rewrite Hpost, Hscore, Hbody.
  unfold post_move_body. destruct (cell_eqb _ _).
  - cbn [List.length]. lia.
  - rewrite removelast_cons2. cbn [List.length].
    rewrite length_removelast_cons. lia.
Qed.

(** X4. The score counts the segments gained: one update changes score and
    body length by the same amount, and since a session starts with score 0
    and one segment, the score is the length of the body minus one at every
    point of the game loop. *)
Theorem score_counts_growth fuel env :
  (forall s w s' st w',
     update fuel s env w = Done (s', st) w' ->
     score s' - Z.of_nat (List.length (snake_body s'))
       = score s - Z.of_nat (List.length (snake_body s))) /\
  (forall inputs w s w',
     game_loop fuel inputs env w = Done (Some s) w' ->
     score s = Z.of_nat (List.length (snake_body s)) - 1).
Proof.
  assert (Hupd : forall s w s' st w',
            update fuel s env w = Done (s', st) w' ->
            score s' - Z.of_nat (List.length (snake_body s'))
              = score s - Z.of_nat (List.length (snake_body s)))
    by (intros s w s' st w'; apply update_score_length).
  split; [exact Hupd|].
  intros inputs w s w' H.
  apply (game_loop_invariant
           (fun s _ => score s = Z.of_nat (List.length (snake_body s)) - 1)
           fuel env)
    with (inputs := inputs) (w := w) (w' := w'); [ | | | exact H].
  - intros key s0 w0 HI. destruct (keydown_frame key s0) as (p & d & ->).
    exact HI.
  - intros s0 w0 s1 w1 HI Hrun. pose proof (Hupd _ _ _ _ _ Hrun). lia.
  - intros w0 s0 w1 Hnew. apply new_session_Done in Hnew.
    destruct Hnew as (food & now & -> & _). reflexivity.
Qed.

Lemma score_counts_growth_witness :
  game_loop 1 [([], ACT_QUIT)] quiet_env fresh_world
    = Done (Some (mkSession [(21, 15)] (0, 0) None RIGHT 0 0 false
                    SNAKE_SPEED_NORMAL false 0%float 1%float))
           (mkWorld 2 2 Missing) /\
  0 = Z.of_nat (List.length [(21, 15)]) - 1.
Proof.
  split; [reflexivity|].
  exact (proj2 (score_counts_growth 1 quiet_env) [([], ACT_QUIT)] fresh_world
           _ (mkWorld 2 2 Missing) eq_refl).
Defined.

Lemma faces_wall_iff d h :
  in_grid h -> (out_of_bounds (moved_head d h) <-> faces_wall d h).
Proof.
  destruct h as [x y]. unfold in_grid, out_of_bounds, faces_wall.
  change GRID_WIDTH with 40. change GRID_HEIGHT with 30.
  destruct d; simpl; lia.
Qed.

(** X5. A head that is on the grid runs into a wall exactly when it stands
    on the border and moves across it: then the update ends the game; and
    an update that ends the game for a head not facing the wall found the
    new head among the other segments. *)
Theorem wall_hit_exactly_at_border fuel s env w s' st w' h t
  (Hbody : snake_body s = h :: t)
  (Hgrid : in_grid h)
  (Hrun : update fuel s env w = Done (s', st) w') :
  (out_of_bounds (moved_head (direction s) h)
     <-> faces_wall (direction s) h) /\
  (faces_wall (direction s) h -> st = GameOver) /\
  (st = GameOver -> ~ faces_wall (direction s) h ->
   In (moved_head (direction s) h) (tl (snake_body s'))).
Proof.
  pose proof (faces_wall_iff (direction s) h Hgrid) as Hwall.
  apply update_Done in Hrun.
  destruct Hrun as (h0 & t0 & Hbody0 & Hpost & Hst & _).
  cbv zeta in Hpost, Hst. rewrite Hbody in Hbody0.
  injection Hbody0 as <- <-. rewrite <- Hpost in Hst.
  rewrite orb_true_iff, off_grid_iff, cell_in_In in Hst.
  split_ands.
  - exact Hwall.
  - intros Hf. apply Hst. left. apply Hwall. exact Hf.
  - intros Hover Hnot. destruct (proj1 Hst Hover) as [Hout | Hself].
    + exfalso. apply Hnot. apply Hwall. exact Hout.
    + exact Hself.
Qed.

Lemma wall_hit_exactly_at_border_witness :
  update 1 at_left_wall quiet_env fresh_world
    = Done (through_left_wall, GameOver) (mkWorld 0 1 Missing) /\
  faces_wall LEFT (0, 0).
Proof.
  split; [reflexivity|].
  apply (proj1 (wall_hit_exactly_at_border 1 at_left_wall quiet_env
                  fresh_world through_left_wall GameOver
                  (mkWorld 0 1 Missing) (0, 0) [(1, 0)] eq_refl
                  (conj (conj (Z.le_refl 0) eq_refl)
                        (conj (Z.le_refl 0) eq_refl))
                  eq_refl)).
  left. reflexivity.
Defined.

(** X6. A snake of one or two segments cannot run into itself: when the
    food is not under the snake, an update that ends its game found the new
    head off the grid. *)
Theorem short_snake_only_hits_walls fuel s env w s' w' h t
  (Hbody : snake_body s = h :: t)
  (Hshort : (List.length t <= 1)%nat)
  (Hfood : ~ In (food_pos s) (snake_body s))
  (Hrun : update fuel s env w = Done (s', GameOver) w') :
  out_of_bounds (moved_head (direction s) h).
Proof.
  apply update_Done in Hrun.
  destruct Hrun as (h0 & t0 & Hbody0 & _ & Hst & _).
  cbv zeta in Hst. rewrite Hbody in Hbody0. injection Hbody0 as <- <-.
  destruct (post_move_body_head s h t) as (rest & Hhead & Hrest).
  rewrite Hhead in Hst. simpl tl in Hst.
  rewrite orb_true_iff, off_grid_iff, cell_in_In in Hst.
  destruct (proj1 Hst eq_refl) as [Hout | Hself]; [exact Hout|].
  exfalso. subst rest.
  destruct (cell_eqb (moved_head (direction s) h) (food_pos s)) eqn:Heat.
  - apply cell_eqb_eq in Heat. apply Hfood. rewrite Hbody, <- Heat.
    exact Hself.
  - destruct t as [|a [|b t]].
    + destruct Hself.
    + destruct Hself as [Heq | []].
      exact (moved_head_differs (direction s) h (eq_sym Heq)).
    + simpl in Hshort. lia.
Qed.

Lemma short_snake_only_hits_walls_witness :
  update 1 at_left_wall quiet_env fresh_world
    = Done (through_left_wall, GameOver) (mkWorld 0 1 Missing) /\
  out_of_bounds (moved_head LEFT (0, 0)).
Proof.
  split; [reflexivity|].
  refine (short_snake_only_hits_walls 1 at_left_wall quiet_env fresh_world
            through_left_wall (mkWorld 0 1 Missing) (0, 0) [(1, 0)]
            eq_refl (le_n 1) _ eq_refl).
  simpl. intros [H | [H | []]]; discriminate H.
Defined.

(** ** Food, power-up and boost over the ticks *)

Lemma in_post_move_body s h t c :
  In c (post_move_body s h t) ->
  c = moved_head (direction s) h \/ In c (h :: t).
Proof.
  unfold post_move_body. destruct (cell_eqb _ _).
  - intros [<- | H]; [left; reflexivity | right; exact H].
  - rewrite removelast_cons2. intros [<- | H]; [left; reflexivity | right].
    apply in_removelast. exact H.
Qed.

(** X7. Food and power-up always lie on the grid and never under the snake:
    one update keeps that, whether the snake grows, takes the power-up or
    dies, a fresh session has it, and so it holds at every point of the
    game loop. *)
Theorem items_stay_off_snake fuel env :
  (forall s w s' st w',
     items_off_snake s ->
     update fuel s env w = Done (s', st) w' -> items_off_snake s') /\
  (forall inputs w s w',
     game_loop fuel inputs env w = Done (Some s) w' -> items_off_snake s).
Proof.
  assert (Hupd : forall s w s' st w',
            items_off_snake s ->
            update fuel s env w = Done (s', st) w' -> items_off_snake s').
  { intros s w s' st w' [[Hfgrid Hfoff] Hpow] H.
    pose proof (update_boost_Done _ _ _ _ _ _ _ H) as Hboost.
    apply update_Done in H.
    destruct H as (h & t & Hbody & Hpost & _ & _ & Heat & Hkeep & _).
    destruct Hboost as (h0 & t0 & Hbody0 & _ & _ & _ & Hstay & Hnew).
    rewrite Hbody in Hbody0. injection Hbody0 as <- <-.
    cbv zeta in *. rewrite Hbody in *. split.
    - destruct (cell_eqb (moved_head (direction s) h) (food_pos s)) eqn:Hf.
      + destruct (Heat eq_refl) as (_ & Hfree & Hin).
        split; [exact Hin|]. rewrite Hpost. apply cell_in_false. exact Hfree.
      + rewrite (Hkeep eq_refl). split; [exact Hfgrid|].
        rewrite Hpost. intros Hin.
        destruct (in_post_move_body _ _ _ _ Hin) as [Heq | Hold].
        * rewrite Heq, cell_eqb_refl in Hf. discriminate.
        * exact (Hfoff Hold).
    - intros p Hp.
      match type of Hstay with (?d = false -> _) => destruct d end.
      + destruct (Hnew eq_refl) as (q & Hq & Hfree & Hgrid).
        assert (q = p) by congruence. subst q.
        split; [exact Hgrid | apply cell_in_false; exact Hfree].
      + destruct (Hstay eq_refl) as [Hsame _]. rewrite Hsame in Hp.
        unfold picks_up in Hp.
        destruct (powerup_pos s) as [q|] eqn:Hq.
        * destruct (cell_eqb (moved_head (direction s) h) q) eqn:Hhit;
            [discriminate|].
          injection Hp as ->. destruct (Hpow p eq_refl) as [Hgrid Hoff].
          split; [exact Hgrid|]. rewrite Hpost. intros Hin.
          destruct (in_post_move_body _ _ _ _ Hin) as [Heq | Hold].
          -- rewrite Heq, cell_eqb_refl in Hhit. discriminate.
          -- exact (Hoff Hold).
        * discriminate. }
  split; [exact Hupd|].
  intros inputs w s w' H.
  apply (game_loop_invariant (fun s _ => items_off_snake s) fuel env)
    with (inputs := inputs) (w := w) (w' := w'); [ | | | exact H].
  - intros key s0 w0 HI. destruct (keydown_frame key s0) as (p & d & ->).
    exact HI.
  - intros s0 w0 s1 w1 HI Hrun. exact (Hupd _ _ _ _ _ HI Hrun).
  - intros w0 s0 w1 Hnew. apply new_session_Done in Hnew.
    destruct Hnew as (food & now & -> & Hfree & Hgrid & _).
    split; [split|].
    + exact Hgrid.
    + apply cell_in_false. exact Hfree.
    + intros p Hp. discriminate.
Qed.

Lemma items_stay_off_snake_witness :
  update 1 hungry quiet_env fresh_world
    = Done (fed, Running) (mkWorld 2 1 Missing) /\
  items_off_snake fed.
Proof.
  split; [reflexivity|].
  refine (proj1 (items_stay_off_snake 1 quiet_env) hungry fresh_world fed
            Running (mkWorld 2 1 Missing) _ eq_refl).
  split; [split|].
  - repeat split; discriminate.
  - simpl. intros [H | []]. discriminate H.
  - intros p H. discriminate H.
Defined.

(** X8. The speed always goes with the boost flag, 20 when boosted and 10
    otherwise: one update keeps that, a fresh session has it, and so it
    holds at every point of the game loop. *)
Theorem speed_goes_with_boost fuel env :
  (forall s w s' st w',
     speed_matches_boost s ->
     update fuel s env w = Done (s', st) w' -> speed_matches_boost s') /\
  (forall inputs w s w',
     game_loop fuel inputs env w = Done (Some s) w' ->
     speed_matches_boost s).
Proof.
  assert (Hupd : forall s w s' st w',
            speed_matches_boost s ->
            update fuel s env w = Done (s', st) w' ->
            speed_matches_boost s').
  { intros s w s' st w' Hs H. apply update_boost_Done in H.
    destruct H as (h & t & _ & Hact & _ & Hspeed & _). cbv zeta in *.
    unfold speed_matches_boost in *. rewrite Hact, Hspeed, Hs.
    destruct (powerup_active s), (picks_up s (moved_head (direction s) h));
      cbn [orb andb];
      match goal with
      | |- context [elapsed_over ?a ?b ?c] => destruct (elapsed_over a b c)
      | _ => idtac
      end; reflexivity. }
  split; [exact Hupd|].
  intros inputs w s w' H.
  apply (game_loop_invariant (fun s _ => speed_matches_boost s) fuel env)
    with (inputs := inputs) (w := w) (w' := w'); [ | | | exact H].
  - intros key s0 w0 HI. destruct (keydown_frame key s0) as (p & d & ->).
    exact HI.
  - intros s0 w0 s1 w1 HI Hrun. exact (Hupd _ _ _ _ _ HI Hrun).
  - intros w0 s0 w1 Hnew. apply new_session_Done in Hnew.
    destruct Hnew as (food & now & -> & _). reflexivity.
Qed.

Lemma speed_goes_with_boost_witness :
  update 1 boosted late_env fresh_world
    = Done (slowed, Running) (mkWorld 0 2 Missing) /\
  speed_matches_boost slowed.
Proof.
  split; [reflexivity|].
  exact (proj1 (speed_goes_with_boost 1 late_env) boosted fresh_world slowed
           Running (mkWorld 0 2 Missing) eq_refl eq_refl).
Defined.

(** X9. The life of a power-up over one update.  A power-up that the new
    head does not reach stays where it is.  One that the head reaches is
    taken: it is gone from that cell and the boost timer is the clock
    reading of the pick-up.  With none on the board, none is there
    afterwards exactly when the test of line 239 fails: the spawn interval
    is not below the difference, rounded as a float, between the clock
    reading of that test and the last spawn time. *)
Theorem powerup_lifecycle fuel s env w s' st w' h t
  (Hbody : snake_body s = h :: t)
  (Hrun : update fuel s env w = Done (s', st) w') :
  let nh := moved_head (direction s) h in
  (forall p, powerup_pos s = Some p -> nh <> p -> powerup_pos s' = Some p) /\
  (powerup_pos s = Some nh ->
     powerup_pos s' <> Some nh /\
     powerup_timer s' = clock env (clock_pos w)) /\
  (powerup_pos s = None ->
     let now :=
       clock env (clock_pos w + (if powerup_active s then 1 else 0)) in
     (powerup_pos s' = None <->
      (POWERUP_SPAWN_INTERVAL <? now - last_powerup_spawn s)%float = false)).
Proof.
  pose proof (update_boost_Done _ _ _ _ _ _ _ Hrun) as Hboost.
  apply update_Done in Hrun.
  destruct Hrun as (h1 & t1 & Hbody1 & Hpost & _).
  destruct Hboost as (h0 & t0 & Hbody0 & _ & Htimer & _ & Hstay & Hnew).
  rewrite Hbody in Hbody0, Hbody1.
  injection Hbody0 as <- <-. injection Hbody1 as <- <-.
  cbv zeta in *.
  destruct (post_move_body_head s h t) as (rest & Hhead & _).
  rewrite Hhead in Hpost. unfold picks_up in *.
  split_ands.
  - intros p Hp Hne. rewrite Hp in *.
    assert (Hmiss : cell_eqb (moved_head (direction s) h) p = false).
    { destruct (cell_eqb _ _) eqn:E; [|reflexivity].
      apply cell_eqb_eq in E. contradiction. }
    rewrite Hmiss in *. cbn [orb] in Hstay. rewrite andb_false_r in Hstay.
    exact (proj1 (Hstay eq_refl)).
  - intros Hp. rewrite Hp in *. rewrite cell_eqb_refl in *.
    split; [|exact Htimer].
    match type of Hstay with (?d = false -> _) => destruct d end.
    + destruct (Hnew eq_refl) as (q & Hq & Hfree & _).
      rewrite Hq. intros Heq. injection Heq as ->.
      rewrite Hpost in Hfree. simpl in Hfree.
      rewrite cell_eqb_refl in Hfree. discriminate.
    + rewrite (proj1 (Hstay eq_refl)). discriminate.
  - intros Hp. rewrite Hp in *. cbn [orb] in *.
    rewrite orb_false_r, andb_true_r in *.
    assert (Hpos : (if powerup_active s then S (clock_pos w)
                    else clock_pos w)
                   = (clock_pos w + (if powerup_active s then 1 else 0))%nat)
      by (destruct (powerup_active s); lia).
    rewrite Hpos in *. unfold elapsed_over in *.
    destruct (_ <? _)%float.
    + destruct (Hnew eq_refl) as (q & Hq & _). rewrite Hq.
      split; discriminate.
    + rewrite (proj1 (Hstay eq_refl)). split; reflexivity.
Qed.

Lemma powerup_lifecycle_witness :
  (update 1 reaching quiet_env fresh_world
     = Done (reached, Running) (mkWorld 0 3 Missing) /\
   powerup_pos reached <> Some (11, 10) /\
   powerup_timer reached = 1%float) /\
  (update 1 waiting spawn_edge_env fresh_world
     = Done (still_waiting, Running) (mkWorld 0 1 Missing) /\
   powerup_pos still_waiting = None).
Proof.
  split; (split; [reflexivity|]).
  - exact (proj1 (proj2 (powerup_lifecycle 1 reaching quiet_env fresh_world
                           reached Running (mkWorld 0 3 Missing)
                           (10, 10) [] eq_refl eq_refl))
             eq_refl).
  - exact (proj2 (proj2 (proj2 (powerup_lifecycle 1 waiting spawn_edge_env
                                  fresh_world still_waiting Running
                                  (mkWorld 0 1 Missing) (10, 10) []
                                  eq_refl eq_refl))
                    eq_refl)
             eq_refl).
Defined.

(** X10. A boost ends by the clock alone.  In an update that picks up no
    power-up the boost timer is kept, and the boost is on afterwards
    exactly when it was on before and the test of line 234 fails: the boost
    duration is not below the difference, rounded as a float, between the
    first clock reading of the update and the timer; a boost that ends puts
    the speed back to normal. *)
Theorem boost_ends_after_duration fuel s env w s' st w' h t
  (Hbody : snake_body s = h :: t)
  (Hmiss : forall p, powerup_pos s = Some p ->
                     moved_head (direction s) h <> p)
  (Hrun : update fuel s env w = Done (s', st) w') :
  powerup_timer s' = powerup_timer s /\
  (powerup_active s' = true <->
   powerup_active s = true /\
   (POWERUP_DURATION <? clock env (clock_pos w) - powerup_timer s)%float
     = false) /\
  (powerup_active s = true -> powerup_active s' = false ->
   speed s' = SNAKE_SPEED_NORMAL).
Proof.
  apply update_boost_Done in Hrun.
  destruct Hrun as (h0 & t0 & Hbody0 & Hact & Htimer & Hspeed & _).
  rewrite Hbody in Hbody0. injection Hbody0 as <- <-. cbv zeta in *.
  assert (Hpick : picks_up s (moved_head (direction s) h) = false).
  { unfold picks_up. destruct (powerup_pos s) as [p|] eqn:Hp; [|reflexivity].
    destruct (cell_eqb _ _) eqn:E; [|reflexivity].
    apply cell_eqb_eq in E. exfalso. exact (Hmiss p eq_refl E). }
  rewrite Hpick in *. rewrite orb_false_r in *.
  rewrite Hact, Htimer, Hspeed. clear Hact Htimer Hspeed.
  unfold elapsed_over.
  destruct (powerup_active s); cbn [andb negb];
    destruct (_ <? _)%float; cbn [andb negb]; split_ands;
    try reflexivity; try (split; intros; intuition congruence);
    intros; congruence.
Qed.

Lemma boost_ends_after_duration_witness :
  update 1 long_boost boost_edge_env fresh_world
    = Done (long_boost_kept, Running) (mkWorld 0 2 Missing) /\
  powerup_timer long_boost_kept = powerup_timer long_boost /\
  powerup_active long_boost_kept = true.
Proof.
  split; [reflexivity|].
  destruct (boost_ends_after_duration 1 long_boost boost_edge_env fresh_world
              long_boost_kept Running (mkWorld 0 2 Missing) (10, 10) []
              eq_refl
              (fun p (Hp : None = Some p) _ =>
                 eq_ind None
                   (fun o => match o with
                             | None => True
                             | Some _ => False
                             end)
                   I (Some p) Hp)
              eq_refl)
    as (Htimer & Hon & _).
  split; [exact Htimer | exact (proj2 Hon (conj eq_refl eq_refl))].
Defined.

(** ** What can go wrong *)

Lemma bind_Uncaught_inv {A B} (m : M A) (f : A -> M B) env w e w' :
  bind m f env w = Uncaught e w' ->
  m env w = Uncaught e w' \/
  exists a w1, m env w = Done a w1 /\ f a env w1 = Uncaught e w'.
Proof.
  unfold bind. destruct (m env w) as [a w1|e1 w1|]; intros H.
  - right. exists a, w1. split; [reflexivity | exact H].
  - left. injection H as <- <-. reflexivity.
  - discriminate.
Qed.

Lemma eat_or_shrink_Uncaught fuel s env w e w' :
  eat_or_shrink fuel s env w = Uncaught e w' ->
  snake_body s = [] /\ e = IndexError /\ w' = w.
Proof.
  unfold eat_or_shrink. intros H.
  destruct (snake_body s) as [|h t].
  - injection H as <- <-. split_ands; reflexivity.
  - exfalso.
    rewrite (bind_step _ _ _ _ _ _ (move_snake_cons h t (direction s) env w))
      in H.
    unfold item0 in H.
    rewrite (bind_step _ _ env w (moved_head (direction s) h) w) in H
      by reflexivity.
    destruct (cell_eqb _ _).
    + apply bind_Uncaught_inv in H. destruct H as [H | (a & w1 & _ & H)].
      * exact (create_food_never_raises _ _ _ _ _ _ H).
      * discriminate.
    + discriminate.
Qed.

Lemma take_powerup_Uncaught s env w e w' :
  take_powerup s env w = Uncaught e w' ->
  snake_body s = [] /\ e = IndexError /\ w' = w.
Proof.
  unfold take_powerup. intros H.
  destruct (powerup_pos s) as [p|]; [|discriminate].
  destruct (snake_body s) as [|h t].
  - injection H as <- <-. split_ands; reflexivity.
  - exfalso. unfold item0 in H.
    rewrite (bind_step _ _ env w h w) in H by reflexivity.
    destruct (cell_eqb h p); [|discriminate].
    rewrite (bind_step _ _ _ _ _ _ (time_time_run env w)) in H.
    discriminate.
Qed.

Lemma expire_boost_never_raises s env w e w' :
  expire_boost s env w <> Uncaught e w'.
Proof.
  destruct (expire_boost_total s env w) as (s' & w1 & H). rewrite H.
  discriminate.
Qed.

Lemma spawn_powerup_never_raises fuel s env w e w' :
  spawn_powerup fuel s env w <> Uncaught e w'.
Proof.
  unfold spawn_powerup. intros H.
  rewrite (bind_step _ _ _ _ _ _ (time_time_run env w)) in H.
  destruct (_ && _); [|discriminate].
  apply bind_Uncaught_inv in H. destruct H as [H | (p & w1 & _ & H)].
  - rewrite (create_powerup_is_create_food fuel) in H.
    exact (create_food_never_raises _ _ _ _ _ _ H).
  - rewrite (bind_step _ _ _ _ _ _ (time_time_run env w1)) in H.
    discriminate.
Qed.

Lemma settle_collision_Uncaught s env w e w' :
  settle_collision s env w = Uncaught e w' ->
  (snake_body s = [] /\ e = IndexError /\ w' = w) \/
  (snake_body s <> [] /\ e = IOError /\ disk env <> Writable).
Proof.
  unfold settle_collision. intros H.
  destruct (snake_body s) as [|h t].
  - injection H as <- <-. left. split_ands; reflexivity.
  - right. split; [discriminate|].
    rewrite (bind_step _ _ _ _ _ _ (check_collision_cons h t env w)) in H.
    destruct (off_grid h || cell_in h t); [|discriminate].
    destruct (score s >? high_score s); [|discriminate].
    unfold bind, save_high_score in H.
    destruct (disk env); [discriminate | |]; injection H as <- _;
      split; [reflexivity | discriminate | reflexivity | discriminate].
Qed.

Lemma update_Uncaught fuel s env w e w' :
  update fuel s env w = Uncaught e w' ->
  (snake_body s = [] /\ e = IndexError /\ w' = w) \/
  (snake_body s <> [] /\ e = IOError /\ disk env <> Writable).
Proof.
  unfold update. intros H. apply bind_Uncaught_inv in H.
  destruct H as [H | (s4 & w4 & Hadv & H)].
  - left. unfold advance in H. apply bind_Uncaught_inv in H.
    destruct H as [H | (s1 & w1 & H1 & H)].
    + exact (eat_or_shrink_Uncaught _ _ _ _ _ _ H).
    + exfalso. apply eat_or_shrink_fields in H1.
      destruct H1 as (h & t & _ & Hb1 & _).
      destruct (post_move_body_head s h t) as (rest & Hhead & _).
      rewrite Hhead in Hb1.
      apply bind_Uncaught_inv in H. destruct H as [H | (s2 & w2 & _ & H)].
      * apply take_powerup_Uncaught in H. destruct H as [H _]. congruence.
      * apply bind_Uncaught_inv in H.
        destruct H as [H | (s3 & w3 & _ & H)].
        -- exact (expire_boost_never_raises _ _ _ _ _ H).
        -- exact (spawn_powerup_never_raises _ _ _ _ _ _ H).
  - apply advance_Done in Hadv.
    destruct Hadv as (s1 & w1 & H1 & (Hb4 & _) & _).
    apply eat_or_shrink_fields in H1.
    destruct H1 as (h & t & Hbody & Hb1 & _).
    destruct (post_move_body_head s h t) as (rest & Hhead & _).
    apply settle_collision_Uncaught in H.
    destruct H as [(Hnil & _) | (_ & He & Hdisk)].
    + congruence.
    + right. split_ands; [congruence | exact He | exact Hdisk].
Qed.

Lemma new_session_never_raises fuel env w e w' :
  new_session fuel env w <> Uncaught e w'.
Proof.
  unfold new_session. intros H.
  rewrite (bind_step _ _ _ _ _ _ (load_high_score_run env w)) in H.
  apply bind_Uncaught_inv in H. destruct H as [H | (food & w1 & _ & H)].
  - exact (create_food_never_raises _ _ _ _ _ _ H).
  - rewrite (bind_step _ _ _ _ _ _ (time_time_run env w1)) in H.
    discriminate.
Qed.

(** X11. What one update can raise.  For a score that [str] can write, now
    and after one more food, an update raises an index error exactly when
    the snake has no segment, with the world untouched, and otherwise
    nothing but the I/O error of a disk that refuses the save. *)
Theorem only_a_failed_save_escapes fuel env s w
  (Hnow : within_limit env (score s))
  (Hnext : within_limit env (score s + 1)) :
  (forall e w',
     update fuel s env w = Uncaught e w' ->
     (snake_body s = [] /\ e = IndexError /\ w' = w) \/
     (snake_body s <> [] /\ e = IOError /\ disk env <> Writable)) /\
  (snake_body s = [] -> update fuel s env w = Uncaught IndexError w).
Proof.
  split.
  - intros e w' H. exact (update_Uncaught _ _ _ _ _ _ H).
  - intros Hnil. unfold update, advance, eat_or_shrink, bind.
    rewrite Hnil. reflexivity.
Qed.

Lemma only_a_failed_save_escapes_witness :
  game_loop 1 (repeat ([], ACT_QUIT) 19) unlucky_env fresh_world
    = Done (Some last_step) (mkWorld 4 20 Missing) /\
  update 1 last_step unlucky_env (mkWorld 4 20 Missing)
    = Uncaught IOError (mkWorld 4 21 Missing) /\
  disk unlucky_env <> Writable.
Proof.
  split; [reflexivity|]. split; [reflexivity|].
  destruct (proj1 (only_a_failed_save_escapes 1 unlucky_env last_step
                     (mkWorld 4 20 Missing) eq_refl eq_refl)
              IOError (mkWorld 4 21 Missing) eq_refl)
    as [(Hnil & _) | (_ & _ & Hdisk)].
  - discriminate Hnil.
  - exact Hdisk.
Defined.

(** ** The high score on disk *)


Lemma loaded_py_str env w z :
  file w = Content (py_str z) -> within_limit env z -> loaded env w = z.
Proof.
  intros Hfile Hlimit. unfold loaded.
  rewrite Hfile, (py_int_py_str env z Hlimit). reflexivity.
Qed.

(** X15. What [save_high_score] writes, [load_high_score] reads back.  On a
    working disk, with a file that is not barred from reading and a number
    that [str] can write, the save returns, touching neither the clock nor
    the random source, and the next load yields the number saved, whatever
    the file held before. *)
Theorem saved_score_is_loaded_back env w z
  (Hdisk : disk env = Writable)
  (Hfile : file w <> Unreadable)
  (Hlimit : within_limit env z) :
  exists w1,
    save_high_score z env w = Done tt w1 /\
    load_high_score env w1 = Done z w1 /\
    rng_pos w1 = rng_pos w /\ clock_pos w1 = clock_pos w.
Proof.
  unfold save_high_score. rewrite Hdisk.
  eexists. split; [reflexivity|]. split_ands; [|reflexivity..].
  rewrite load_high_score_run. f_equal.
  apply loaded_py_str; [reflexivity | exact Hlimit].
Qed.

Lemma saved_score_is_loaded_back_witness :
  exists w1,
    save_high_score (-42) quiet_env minus_five_world = Done tt w1 /\
    load_high_score quiet_env w1 = Done (-42) w1 /\
    rng_pos w1 = 0%nat /\ clock_pos w1 = 0%nat.
Proof.
  refine (saved_score_is_loaded_back quiet_env minus_five_world (-42)
            eq_refl _ eq_refl).
  discriminate.
Defined.

(** ** The high score over the whole run *)








(** ** Events *)

Lemma game_over_events_cons e rest :
  game_over_events (e :: rest) =
  match answer_of e with
  | Some a => Some a
  | None => game_over_events rest
  end.
Proof. destruct e as [|[]|]; reflexivity. Qed.

Lemma game_over_events_app a b :
  game_over_events (a ++ b) =
  match game_over_events a with
  | Some x => Some x
  | None => game_over_events b
  end.
Proof.
  induction a as [|e a IH]; [reflexivity|].
  rewrite <- app_comm_cons, !game_over_events_cons.
  destruct (answer_of e); [reflexivity | exact IH].
Qed.

Lemma game_over_events_Some events a :
  game_over_events events = Some a <->
  exists before e after,
    events = before ++ e :: after /\
    Forall (fun x => answer_of x = None) before /\ answer_of e = Some a.
Proof.
  induction events as [|e events IH].
  - split; [discriminate|]. intros (before & x & after & H & _).
    destruct before; discriminate.
  - rewrite game_over_events_cons. destruct (answer_of e) as [b|] eqn:He.
    + split.
      * intros H. injection H as <-. exists [], e, events.
        split_ands; [reflexivity | constructor | exact He].
      * intros (before & x & after & H & Hnone & Hx).
        destruct before as [|y before].
        -- injection H as <- _. congruence.
        -- injection H as <- _. inversion Hnone; congruence.
    + rewrite IH. split.
      * intros (before & x & after & -> & Hnone & Hx).
        exists (e :: before), x, after.
        split_ands; [reflexivity | constructor; assumption | exact Hx].
      * intros (before & x & after & H & Hnone & Hx).
        destruct before as [|y before].
        -- injection H as <- _. congruence.
        -- injection H as <- ->. exists before, x, after.
           split_ands; [reflexivity | inversion Hnone; assumption | exact Hx].
Qed.

(** X12. The game-over screen answers with the first window-close event
    or press of [r] or [q], in the order the events arrive: how they are
    split into batches plays no part, every other key is skipped, and
    without such an event the screen is still waiting. *)
Theorem game_over_screen_first_answer (batches : list (list Event)) :
  game_over_screen batches = game_over_events (List.concat batches) /\
  (forall a,
     game_over_screen batches = Some a <->
     exists before e after,
       List.concat batches = before ++ e :: after /\
       Forall (fun x => answer_of x = None) before /\
       answer_of e = Some a) /\
  (game_over_screen batches = None <->
   Forall (fun x => answer_of x = None) (List.concat batches)).
Proof.
  assert (Hflat : game_over_screen batches = game_over_events (List.concat batches)).
  { induction batches as [|b batches IH]; [reflexivity|].
    simpl. rewrite game_over_events_app, IH. reflexivity. }
  split_ands.
  - exact Hflat.
  - intros a. rewrite Hflat. apply game_over_events_Some.
  - rewrite Hflat. generalize (List.concat batches). intros events.
    induction events as [|e events IH].
    + split; [constructor | reflexivity].
    + rewrite game_over_events_cons. destruct (answer_of e) eqn:He.
      * split; [discriminate|]. intros H. inversion H; congruence.
      * rewrite IH. split.
        -- intros H. constructor; assumption.
        -- intros H. inversion H; assumption.
Qed.

Lemma game_over_screen_first_answer_witness :
  game_over_screen [[KEYDOWN K_UP]; [OtherEvent; KEYDOWN K_r; QUIT]]
    = Some ACT_RESTART.
Proof.
  apply (proj2 (proj1 (proj2 (game_over_screen_first_answer
                                [[KEYDOWN K_UP];
                                 [OtherEvent; KEYDOWN K_r; QUIT]]))
                  ACT_RESTART)).
  exists [KEYDOWN K_UP; OtherEvent], (KEYDOWN K_r), [QUIT].
  split; [reflexivity|]. split; [|reflexivity].
  repeat constructor.
Defined.

Lemma process_events_app e1 : forall e2 s,
  process_events (e1 ++ e2) s =
  match process_events e1 s with
  | Some s1 => process_events e2 s1
  | None => None
  end.
Proof.
  induction e1 as [|e e1 IH]; intros e2 s; [reflexivity|].
  destruct e as [|key|]; simpl; [reflexivity | apply IH | apply IH].
Qed.

(** X13. A batch of events makes the loop return exactly when it holds a
    window-close event, wherever in the batch it stands: the iteration then
    ends the program without a tick and without touching the world, paused
    or not.  Handling a batch in two parts gives what handling it at once
    gives. *)
Theorem window_close_ends_the_batch :
  (forall events s, process_events events s = None <-> In QUIT events) /\
  (forall fuel events answer s env w,
     In QUIT events -> frame fuel events answer s env w = Done Exit w) /\
  (forall e1 e2 s,
     process_events (e1 ++ e2) s =
     match process_events e1 s with
     | Some s1 => process_events e2 s1
     | None => None
     end).
Proof.
  assert (Hquit : forall events s,
            process_events events s = None <-> In QUIT events).
  { intros events. induction events as [|e events IH]; intros s.
    - split; [discriminate | intros []].
    - destruct e as [|key|]; simpl.
      + split; [intros _; left; reflexivity | reflexivity].
      + rewrite IH. split; [intros H; right; exact H|].
        intros [H | H]; [discriminate | exact H].
      + rewrite IH. split; [intros H; right; exact H|].
        intros [H | H]; [discriminate | exact H]. }
  split_ands.
  - exact Hquit.
  - intros fuel events answer s env w Hin. unfold frame.
    rewrite (proj2 (Hquit events s) Hin). reflexivity.
  - intros e1 e2 s. apply process_events_app.
Qed.

Lemma window_close_ends_the_batch_witness :
  frame 1 [KEYDOWN K_UP; QUIT; KEYDOWN K_SPACE] ACT_RESTART hungry
    quiet_env fresh_world
  = Done Exit fresh_world.
Proof.
  apply (proj1 (proj2 window_close_ends_the_batch)).
  right. left. reflexivity.
Defined.

(** X14. No single key press turns the snake around: after it the stored
    direction is never the opposite of what it was.  The direction changes
    only while the game is not paused and only to the direction of the
    arrow key pressed; the keys [r], [q] and all others besides the arrows
    and the space bar change nothing at all. *)
Theorem no_key_reverses (key : Key) (s : Session) :
  direction (keydown key s) <> opposite (direction s) /\
  (direction (keydown key s) = direction s \/
   (paused s = false /\ key = key_of (direction (keydown key s)))) /\
  (key = K_r \/ key = K_q \/ key = K_other -> keydown key s = s).
Proof.
  destruct s as [body food pow dir sc hs pa sp act timer spawn].
  split_ands.
  - destruct key, pa, dir; discriminate.
  - destruct key, pa, dir; simpl;
      (left; reflexivity) || (right; split; reflexivity).
  - intros [-> | [-> | ->]]; destruct pa; reflexivity.
Qed.

Lemma no_key_reverses_witness : keydown K_q napping = napping.
Proof.
  exact (proj2 (proj2 (no_key_reverses K_q napping))
           (or_intror (or_introl eq_refl))).
Defined.

(** ** What is drawn *)

Lemma draw_snake_cells body :
  draw_snake body =
  match body with
  | [] => []
  | head :: rest =>
      cell_rect SNAKE_HEAD_COLOR head :: map (cell_rect SNAKE_BODY_COLOR) rest
  end.
Proof. destruct body; reflexivity. Qed.

Lemma cell_rect_on_screen color c : on_screen (cell_rect color c) <-> in_grid c.
Proof.
  unfold on_screen, cell_rect, in_grid.
  change SCREEN_WIDTH with 800. change SCREEN_HEIGHT with 600.
  change GRID_SIZE with 20. change GRID_WIDTH with 40.
  change GRID_HEIGHT with 30. lia.
Qed.

Lemma cell_rect_overlap c1 c2 a b :
  overlap (cell_rect c1 a) (cell_rect c2 b) <-> a = b.
Proof.
  destruct a as [ax ay], b as [bx by_]. unfold overlap, cell_rect.
  cbn [fst snd]. change GRID_SIZE with 20. split.
  - intros H. f_equal; lia.
  - intros H. injection H as -> ->. lia.
Qed.

(** X17. The snake is drawn as one square per segment, the head first and
    in its own colour.  The drawing lies within the window exactly when the
    whole snake is on the grid; squares of different cells share no area,
    so a snake without repeated cells is drawn without overlap, and the
    food and power-up squares overlap a snake square only when the item is
    under the snake. *)
Theorem snake_drawing_fits_the_grid (body : list Cell) :
  List.length (draw_snake body) = List.length body /\
  (forall h t, body = h :: t ->
     draw_snake body
       = cell_rect SNAKE_HEAD_COLOR h :: map (cell_rect SNAKE_BODY_COLOR) t) /\
  (Forall on_screen (draw_snake body) <-> Forall in_grid body) /\
  (NoDup body -> ForallOrdPairs (fun a b => ~ overlap a b) (draw_snake body)) /\
  (forall item,
     ~ In item body ->
     Forall (fun sh => forall it, In it (draw_food item ++ draw_powerup item)
                                  -> ~ overlap it sh)
            (draw_snake body)).
Proof.
  assert (Hshape : forall sh, In sh (draw_snake body) ->
            exists color c, In c body /\ sh = cell_rect color c).
  { intros sh Hin. rewrite draw_snake_cells in Hin.
    destruct body as [|h t]; [destruct Hin|].
    destruct Hin as [<- | Hin].
    - exists SNAKE_HEAD_COLOR, h. split; [left; reflexivity | reflexivity].
    - apply in_map_iff in Hin. destruct Hin as (c & <- & Hc).
      exists SNAKE_BODY_COLOR, c. split; [right; exact Hc | reflexivity]. }
  split_ands.
  - rewrite draw_snake_cells. destruct body; [reflexivity|].
    cbn [List.length]. rewrite length_map. reflexivity.
  - intros h t ->. reflexivity.
  - rewrite draw_snake_cells. destruct body as [|h t].
    + split; constructor.
    + split; intros H; inversion H as [|x l Hx Hl]; subst; constructor.
      * apply cell_rect_on_screen in Hx. exact Hx.
      * rewrite Forall_map in Hl. eapply Forall_impl; [|exact Hl].
        intros c Hc. apply cell_rect_on_screen in Hc. exact Hc.
      * apply cell_rect_on_screen. exact Hx.
      * rewrite Forall_map. eapply Forall_impl; [|exact Hl].
        intros c Hc. apply cell_rect_on_screen. exact Hc.
  - intros Hnd. rewrite draw_snake_cells. destruct body as [|h t].
    + constructor.
    + inversion Hnd as [|x l Hnotin Hnd']; subst. constructor.
      * rewrite Forall_map. apply Forall_forall. intros c Hc Hov.
        apply cell_rect_overlap in Hov. subst c. contradiction.
      * clear Hshape Hnd Hnotin. induction t as [|a t IH]; [constructor|].
        inversion Hnd' as [|x l Hnotin Hnd'']; subst. simpl. constructor.
        -- rewrite Forall_map. apply Forall_forall. intros c Hc Hov.
           apply cell_rect_overlap in Hov. subst c. contradiction.
        -- exact (IH Hnd'').
  - intros item Hoff. apply Forall_forall. intros sh Hsh it Hit Hov.
    destruct (Hshape sh Hsh) as (color & c & Hc & ->).
    destruct Hit as [<- | [<- | []]];
      apply (cell_rect_overlap _ _ item c) in Hov; subst c; contradiction.
Qed.

Lemma snake_drawing_fits_the_grid_witness :
  ForallOrdPairs (fun a b => ~ overlap a b) (draw_snake (snake_body curled)).
Proof.
  apply (proj1 (proj2 (proj2 (proj2
           (snake_drawing_fits_the_grid (snake_body curled)))))).
  repeat constructor; simpl; intuition discriminate.
Defined.
Lemma py_range_grid (cells : nat) :
  py_range 0 (Z.of_nat cells * GRID_SIZE) GRID_SIZE
  = map (fun i => Z.of_nat i * GRID_SIZE) (seq 0 cells).
Proof.
  unfold py_range. change GRID_SIZE with 20.
  replace ((Z.of_nat cells * 20 - 0 + 20 - 1) / 20) with (Z.of_nat cells).
  - rewrite Nat2Z.id. apply map_ext. intros i. reflexivity.
  - apply Z.div_unique with (r := 19); lia.
Qed.

Lemma in_py_range_grid (cells : nat) (x : Z) :
  In x (py_range 0 (Z.of_nat cells * GRID_SIZE) GRID_SIZE) <->
  exists i, 0 <= i < Z.of_nat cells /\ x = i * GRID_SIZE.
Proof.
  rewrite py_range_grid, in_map_iff. split.
  - intros (n & <- & Hn). apply in_seq in Hn.
    exists (Z.of_nat n). split; [lia | reflexivity].
  - intros (i & Hi & ->). exists (Z.to_nat i). split.
    + f_equal. lia.
    + apply in_seq. lia.
Qed.

(** X18. The optional grid is forty vertical and thirty horizontal white
    lines, one through the left edge of every column of cells and one
    through the top edge of every row, and no others: none on the right or
    the bottom border.  Every line starts on a point of the window and is
    drawn to a point one past its last row or column, so no line lies
    within the window as given.  The left and the top edge of the square of
    every cell on the grid lie on a drawn line. *)
Theorem grid_lines_bound_the_cells :
  List.length draw_grid = Z.to_nat (GRID_WIDTH + GRID_HEIGHT) /\
  (forall sh, In sh draw_grid <->
     (exists i, 0 <= i < GRID_WIDTH /\
        sh = Line WHITE (i * GRID_SIZE, 0) (i * GRID_SIZE, SCREEN_HEIGHT)) \/
     (exists j, 0 <= j < GRID_HEIGHT /\
        sh = Line WHITE (0, j * GRID_SIZE) (SCREEN_WIDTH, j * GRID_SIZE))) /\
  (forall color a b,
     In (Line color a b) draw_grid ->
     pixel a /\ ~ pixel b /\
     (b = (fst a, SCREEN_HEIGHT) \/ b = (SCREEN_WIDTH, snd a))) /\
  Forall (fun sh => ~ on_screen sh) draw_grid /\
  (forall c, in_grid c ->
     In (Line WHITE (fst c * GRID_SIZE, 0) (fst c * GRID_SIZE, SCREEN_HEIGHT))
        draw_grid /\
     In (Line WHITE (0, snd c * GRID_SIZE) (SCREEN_WIDTH, snd c * GRID_SIZE))
        draw_grid).
Proof.
  assert (Hiff : forall sh, In sh draw_grid <->
            (exists i, 0 <= i < GRID_WIDTH /\
               sh = Line WHITE (i * GRID_SIZE, 0)
                      (i * GRID_SIZE, SCREEN_HEIGHT)) \/
            (exists j, 0 <= j < GRID_HEIGHT /\
               sh = Line WHITE (0, j * GRID_SIZE)
                      (SCREEN_WIDTH, j * GRID_SIZE))).
  { intros sh. unfold draw_grid. rewrite in_app_iff, !in_map_iff.
    split.
    - intros [(x & <- & Hx) | (y & <- & Hy)].
      + apply (in_py_range_grid 40) in Hx. destruct Hx as (i & Hi & ->).
        left. exists i. split; [exact Hi | reflexivity].
      + apply (in_py_range_grid 30) in Hy. destruct Hy as (j & Hj & ->).
        right. exists j. split; [exact Hj | reflexivity].
    - intros [(i & Hi & ->) | (j & Hj & ->)].
      + left. exists (i * GRID_SIZE). split; [reflexivity|].
        apply (in_py_range_grid 40). exists i. split; [exact Hi | reflexivity].
      + right. exists (j * GRID_SIZE). split; [reflexivity|].
        apply (in_py_range_grid 30). exists j.
        split; [exact Hj | reflexivity]. }
  assert (Hends : forall color a b,
            In (Line color a b) draw_grid ->
            pixel a /\ ~ pixel b /\
            (b = (fst a, SCREEN_HEIGHT) \/ b = (SCREEN_WIDTH, snd a))).
  { intros color a b Hin. apply Hiff in Hin.
    destruct Hin as [(i & Hi & Heq) | (j & Hj & Heq)];
      injection Heq as _ -> ->; unfold pixel; cbn [fst snd];
      change GRID_WIDTH with 40 in *; change GRID_HEIGHT with 30 in *;
      change SCREEN_WIDTH with 800; change SCREEN_HEIGHT with 600;
      change GRID_SIZE with 20; split_ands; try lia; auto. }
  split_ands.
  - reflexivity.
  - exact Hiff.
  - exact Hends.
  - apply Forall_forall. intros sh Hin Hon.
    destruct sh as [color l t wd ht | color a b].
    + apply Hiff in Hin.
      destruct Hin as [(i & _ & Heq) | (j & _ & Heq)]; discriminate Heq.
    + destruct (Hends color a b Hin) as (_ & Hb & _).
      exact (Hb (proj2 Hon)).
  - intros [x y] [Hcx Hcy]. cbn [fst snd] in *. split; apply Hiff.
    + left. exists x. split; [exact Hcx | reflexivity].
    + right. exists y. split; [exact Hcy | reflexivity].
Qed.

Lemma grid_lines_bound_the_cells_witness :
  In (Line WHITE (7 * GRID_SIZE, 0) (7 * GRID_SIZE, SCREEN_HEIGHT)) draw_grid /\
  ~ pixel (7 * GRID_SIZE, SCREEN_HEIGHT).
Proof.
  assert (Hin : In (Line WHITE (7 * GRID_SIZE, 0)
                      (7 * GRID_SIZE, SCREEN_HEIGHT)) draw_grid).
  { refine (proj1 (proj2 (proj2 (proj2 (proj2 grid_lines_bound_the_cells)))
                     (7, 3) _)).
    split; split; reflexivity || discriminate. }
  split; [exact Hin|].
  exact (proj1 (proj2 (proj1 (proj2 (proj2 grid_lines_bound_the_cells))
                         WHITE _ _ Hin))).
Defined.

(** ** Starting a session *)

(** X19. Starting a session never fails, whatever the high-score file holds
    and whether or not it can be read.  The session that comes back has the
    snake on the centre cell heading right, score 0, no power-up, normal
    speed, no boost, no pause, the clock reading of the start as the time of
    the last spawn, and the food on a grid cell other than the centre; its
    high score is what [load_high_score] returns, so 0 without a file that
    can be read and decoded, and [v] for a file that holds [str(v)] within
    the limit on digits; the file is left as it was.  The session comes
    back exactly when one of the rounds of the first placement draws a cell
    other than the centre. *)
Theorem fresh_session fuel env w :
  (forall e w', new_session fuel env w <> Uncaught e w') /\
  (forall s w',
     new_session fuel env w = Done s w' ->
     snake_body s = [(20, 15)] /\ direction s = RIGHT /\ score s = 0 /\
     paused s = false /\ powerup_pos s = None /\
     speed s = SNAKE_SPEED_NORMAL /\ powerup_active s = false /\
     last_powerup_spawn s = clock env (clock_pos w) /\
     load_high_score env w = Done (high_score s) w /\
     (match file w with
      | Content _ => True
      | Missing | Unreadable | Undecodable => high_score s = 0
      end) /\
     (forall v, file w = Content (py_str v) -> within_limit env v ->
                high_score s = v) /\
     in_grid (food_pos s) /\ food_pos s <> (20, 15) /\
     file w' = file w) /\
  ((exists s w', new_session fuel env w = Done s w') <->
   (exists k, (k < fuel)%nat /\ draw env (rng_pos w + 2 * k) <> (20, 15))).
Proof.
  split_ands.
  - intros e w'. apply new_session_never_raises.
  - intros s w' H. unfold new_session in H.
    rewrite (bind_step _ _ _ _ _ _ (load_high_score_run env w)) in H.
    split_bind H.
    rewrite (bind_step _ _ _ _ _ _ (time_time_run env w0)) in H.
    apply ret_Done in H. destruct H as [<- <-].
    apply create_food_Done in Hrun.
    destruct Hrun as (k & _ & Hc & -> & Hfree & _).
    cbn [snake_body direction score paused powerup_pos speed powerup_active
         last_powerup_spawn high_score food_pos file clock_pos advance_rng].
    split_ands; try reflexivity.
    + apply load_high_score_run.
    + unfold loaded. destruct (file w); trivial.
    + intros v Hfile Hlimit. exact (loaded_py_str env w v Hfile Hlimit).
    + rewrite Hc. apply draw_in_grid.
    + intros Heq. rewrite Heq in Hfree. discriminate Hfree.
  - unfold new_session.
    rewrite (bind_step _ _ _ _ _ _ (load_high_score_run env w)).
    split.
    + intros (s & w' & H). split_bind H.
      apply create_food_Done in Hrun.
      destruct Hrun as (k & Hk & Hc & _ & Hfree & _).
      exists k. split; [exact Hk|]. rewrite <- Hc. intros ->.
      discriminate Hfree.
    + intros (k & Hk & Hne).
      destruct (create_food_returns fuel create_snake env w) as (c & w1 & Hc).
      * exists k. split; [exact Hk|]. apply cell_in_false.
        intros [Heq | []]. apply Hne. symmetry. exact Heq.
      * rewrite (bind_step _ _ _ _ _ _ Hc).
        rewrite (bind_step _ _ _ _ _ _ (time_time_run env w1)).
        eexists. eexists. reflexivity.
Qed.

Lemma fresh_session_witness :
  exists s w',
    new_session 1 quiet_env minus_five_world = Done s w' /\
    high_score s = -5.
Proof.
  destruct (proj2 (proj2 (proj2 (fresh_session 1 quiet_env minus_five_world)))
              (ex_intro _ 0%nat
                 (conj (Nat.lt_0_succ 0)
                    (fun Heq : (0, 0) = (20, 15) =>
                       eq_ind (0, 0)
                         (fun c => match c with
                                   | (0, _) => True
                                   | _ => False
                                   end)
                         I (20, 15) Heq))))
    as (s & w' & Hnew).
  exists s, w'. split; [exact Hnew|].
  destruct (proj1 (proj2 (fresh_session 1 quiet_env minus_five_world))
              s w' Hnew)
    as (_ & _ & _ & _ & _ & _ & _ & _ & _ & _ & Hheld & _).
  apply (Hheld (-5)); reflexivity.
Defined.

